(** * DroneForce functions: the upload-triggered verification pipeline

    A shallow embedding of [functions/blockchain-service.js],
    [functions/index.js] and [firestore.rules], and the properties of the
    pipeline proved over it.

    Conventions of the embedding.
    - An [async] function is a computation in the monad [M]: it threads the
      state of the external collaborators ([World]) and either returns a
      value or throws; a thrown JavaScript [Error] is represented by its
      [message].
    - Everything an invocation reads from its surroundings (clock, random
      generator, digest routine, and which collaborator calls reject) is
      gathered in [Env].
    - [console] output is not part of the model. *)

From Stdlib Require Import ZArith NArith Ascii String Bool List Lia.
From stdpp Require Import base gmap strings list fin_maps.

Local Open Scope N_scope.

(** ** JavaScript and Node helpers used by the sources *)

Module Js.

(** [s.startsWith(p)] *)
Definition startsWith (p s : string) : bool := String.prefix p s.

(** [s.substring(a, b)]; the arguments are swapped when [b < a]. *)
Definition substring (a b : nat) (s : string) : string :=
  if (b <? a)%nat then String.substring b (a - b) s
  else String.substring a (b - a) s.

(** A value used as a condition: [undefined], [null] and the empty string
    are falsy. *)
Definition truthy (v : option string) : bool :=
  match v with
  | Some s => negb (String.eqb s "")
  | None => false
  end.

(** The character class [[a-zA-Z0-9]]. *)
Definition is_alnum (c : ascii) : bool :=
  let n := N_of_ascii c in
  ((48 <=? n) && (n <=? 57)) || ((65 <=? n) && (n <=? 90))
  || ((97 <=? n) && (n <=? 122)).

(** The greedy [[a-zA-Z0-9]*] at the head of [s]. *)
Fixpoint alnum_run (s : string) : string :=
  match s with
  | String c r => if is_alnum c then String c (alnum_run r) else EmptyString
  | EmptyString => EmptyString
  end.

Fixpoint strip_prefix (p s : string) : option string :=
  match p, s with
  | EmptyString, _ => Some s
  | String a p', String b s' =>
      if Ascii.eqb a b then strip_prefix p' s' else None
  | String _ _, EmptyString => None
  end.

Fixpoint all_alnum (s : string) : bool :=
  match s with
  | String c r => is_alnum c && all_alnum r
  | EmptyString => true
  end.

Definition starts_alnum (s : string) : bool :=
  match s with
  | String c _ => is_alnum c
  | EmptyString => false
  end.

(** [/task-([a-zA-Z0-9]+)/] anchored at the head of [s]: the capture. *)
Definition task_re_here (s : string) : option string :=
  match strip_prefix "task-" s with
  | Some rest =>
      match alnum_run rest with
      | EmptyString => None
      | cap => Some cap
      end
  | None => None
  end.

(** [s.match(/task-([a-zA-Z0-9]+)/)]: group 1 of the leftmost match. *)
Fixpoint task_re (s : string) : option string :=
  match task_re_here s with
  | Some cap => Some cap
  | None =>
      match s with
      | EmptyString => None
      | String _ r => task_re r
      end
  end.

(** Whether character [c] occurs in [s]. *)
Fixpoint occurs (c : ascii) (s : string) : bool :=
  match s with
  | String d r => Ascii.eqb c d || occurs c r
  | EmptyString => false
  end.

(** The digits of base 36: [0-9] and [a-z]. *)
Definition is_base36 (c : ascii) : bool :=
  let n := N_of_ascii c in
  ((48 <=? n) && (n <=? 57)) || ((97 <=? n) && (n <=? 122)).

Fixpoint all_base36 (s : string) : bool :=
  match s with
  | String c r => is_base36 c && all_base36 r
  | EmptyString => true
  end.

(** One digit of [Number.prototype.toString(36)]. *)
Definition digit36 (d : N) : ascii :=
  if d <? 10 then ascii_of_N (48 + d) else ascii_of_N (87 + d).

Fixpoint toString36_aux (fuel : nat) (n : N) (acc : string) : string :=
  match fuel with
  | O => acc
  | S f =>
      let acc' := String (digit36 (n mod 36)) acc in
      if n / 36 =? 0 then acc' else toString36_aux f (n / 36) acc'
  end.

(** [n.toString(36)] for a non-negative integer [n]. *)
Definition toString36 (n : N) : string :=
  toString36_aux (S (N.to_nat (N.log2 n))) n EmptyString.

(** Value of a base-36 digit character (inverse of [digit36]). *)
Definition value36 (c : ascii) : N :=
  let n := N_of_ascii c in
  if n <? 58 then n - 48 else n - 87.

Fixpoint parse36 (s : string) (acc : N) : N :=
  match s with
  | EmptyString => acc
  | String c r => parse36 r (acc * 36 + value36 c)
  end.

(** [path.basename(p)] (POSIX): the last non-empty [/]-separated
    component; [cur] is the component being read, [last] the latest
    complete one. *)
Fixpoint basename_aux (p cur last : string) : string :=
  match p with
  | EmptyString => match cur with EmptyString => last | _ => cur end
  | String c r =>
      if Ascii.eqb c "/"
      then basename_aux r EmptyString
             (match cur with EmptyString => last | _ => cur end)
      else basename_aux r (cur +:+ String c EmptyString) last
  end.

Definition basename (p : string) : string :=
  basename_aux p EmptyString EmptyString.

(** The components of a path between its [/] separators, the empty ones
    included; [cur] is the component being read. *)
Fixpoint split_aux (p cur : string) : list string :=
  match p with
  | EmptyString => [cur]
  | String c r =>
      if Ascii.eqb c "/" then cur :: split_aux r EmptyString
      else split_aux r (cur +:+ String c EmptyString)
  end.

Definition split (p : string) : list string := split_aux p EmptyString.

(** [normalizeString] of Node's [path]: the components that are kept, the
    latest first. Empty components and [.] are dropped; [..] removes the
    component before it, and where there is none to remove it is kept
    only in a relative path ([allowAboveRoot]). *)
Fixpoint normalize_segments (allowAboveRoot : bool) (segs stack : list string)
  : list string :=
  match segs with
  | [] => stack
  | seg :: segs' =>
      normalize_segments allowAboveRoot segs'
        (if String.eqb seg "" || String.eqb seg "." then stack
         else if String.eqb seg ".."
         then match stack with
              | last :: rest =>
                  if String.eqb last ".."
                  then (if allowAboveRoot then ".." :: stack else stack)
                  else rest
              | [] => if allowAboveRoot then [".."] else []
              end
         else seg :: stack)
  end.

Fixpoint join_slash (segs : list string) : string :=
  match segs with
  | [] => EmptyString
  | seg :: rest =>
      match rest with
      | [] => seg
      | _ => seg +:+ "/" +:+ join_slash rest
      end
  end.

Fixpoint ends_with_slash (p : string) : bool :=
  match p with
  | EmptyString => false
  | String c r =>
      match r with
      | EmptyString => Ascii.eqb c "/"
      | _ => ends_with_slash r
      end
  end.

(** [path.normalize(p)] (POSIX). *)
Definition normalize (p : string) : string :=
  match p with
  | EmptyString => "."
  | String c _ =>
      let isAbsolute := Ascii.eqb c "/" in
      let trailingSeparator := ends_with_slash p in
      let path :=
        join_slash (rev (normalize_segments (negb isAbsolute) (split p) [])) in
      match path with
      | EmptyString =>
          if isAbsolute then "/" else if trailingSeparator then "./" else "."
      | _ =>
          (if isAbsolute then "/" else "") +:+ path
          +:+ (if trailingSeparator then "/" else "")
      end
  end.

(** [path.join(dir, name)] (POSIX): the non-empty arguments joined by [/],
    then normalised. *)
Definition join (dir name : string) : string :=
  match dir, name with
  | EmptyString, EmptyString => "."
  | EmptyString, _ => normalize name
  | _, EmptyString => normalize dir
  | _, _ => normalize (dir +:+ "/" +:+ name)
  end.

End Js.

(** ** Documents and collaborator state *)

(** A document of the [tasks] collection, restricted to the fields the
    functions read or write. An [undefined] or [null] field is [None]. *)
Record Task := {
  status : string;
  completedAt : option Z;
  verificationResult : option bool;
  verificationReportHash : option string;
  verificationTimestamp : option N;
  verificationTx : option string
}.

(** A document of the [file_hashes] collection ([fileMetadata]). *)
Record FileMetadata := {
  fileName : string;
  filePath : string;
  contentType : string;
  sizeBytes : N;
  uploadTimestamp : N;
  sha256Hash : string;
  processedTimestamp : N
}.

(** One call of the settlement operation: its arguments and the
    transaction id it returned. *)
Record Settlement := {
  st_taskId : string;
  st_result : bool;
  st_reportHash : string;
  st_tx : string
}.

(** The state outside the invocation: the two Firestore collections, the
    storage bucket with the custom metadata of its objects, the local
    temporary directory, and the trace of settlement calls made so far. *)
Record World := {
  tasks : gmap string Task;
  file_hashes : list FileMetadata;
  bucket : gmap string (list Byte.byte);
  object_metadata : gmap string string;
  tmp_files : gmap string (list Byte.byte);
  settlements : list Settlement
}.

Definition set_tasks (f : gmap string Task → gmap string Task) (w : World) : World :=
  {| tasks := f (tasks w); file_hashes := file_hashes w; bucket := bucket w;
     object_metadata := object_metadata w; tmp_files := tmp_files w;
     settlements := settlements w |}.

Definition set_file_hashes (f : list FileMetadata → list FileMetadata) (w : World) : World :=
  {| tasks := tasks w; file_hashes := f (file_hashes w); bucket := bucket w;
     object_metadata := object_metadata w; tmp_files := tmp_files w;
     settlements := settlements w |}.

Definition set_object_metadata (f : gmap string string → gmap string string) (w : World) : World :=
  {| tasks := tasks w; file_hashes := file_hashes w; bucket := bucket w;
     object_metadata := f (object_metadata w); tmp_files := tmp_files w;
     settlements := settlements w |}.

Definition set_tmp_files
    (f : gmap string (list Byte.byte) → gmap string (list Byte.byte)) (w : World) : World :=
  {| tasks := tasks w; file_hashes := file_hashes w; bucket := bucket w;
     object_metadata := object_metadata w; tmp_files := f (tmp_files w);
     settlements := settlements w |}.

Definition set_settlements (f : list Settlement → list Settlement) (w : World) : World :=
  {| tasks := tasks w; file_hashes := file_hashes w; bucket := bucket w;
     object_metadata := object_metadata w; tmp_files := tmp_files w;
     settlements := f (settlements w) |}.

(** What one invocation reads from its surroundings. A field [*_error] that
    is [Some msg] makes the corresponding collaborator call reject with an
    error of that message; [download_partial] is what a rejected download
    leaves at its destination, if anything. *)
Record Env := {
  os_tmpdir : string;
  sha256_hex : list Byte.byte → string;
  timestamp_now : N;
  date_now : N;
  random36 : string;
  server_timestamp : N;
  download_error : option string;
  download_partial : option (list Byte.byte);
  read_error : option string;
  add_error : option string;
  setMetadata_error : option string;
  query_error : option string;
  get_error : option string;
  update_error : option string;
  unlink_error : option string
}.

(** ** Computations that may throw *)

Inductive Result (A : Type) : Type :=
| Ok (a : A)
| Throw (msg : string).
Arguments Ok {A} a.
Arguments Throw {A} msg.

Definition M (A : Type) : Type := World → Result A * World.

Definition ret {A} (a : A) : M A := fun w => (Ok a, w).

Definition throw {A} (msg : string) : M A := fun w => (Throw msg, w).

Definition bind {A B} (m : M A) (k : A → M B) : M B :=
  fun w =>
    match m w with
    | (Ok a, w') => k a w'
    | (Throw e, w') => (Throw e, w')
    end.

(** [try { m } catch (error) { h error.message }] *)
Definition try_catch {A} (m : M A) (h : string → M A) : M A :=
  fun w =>
    match m w with
    | (Ok a, w') => (Ok a, w')
    | (Throw e, w') => h e w'
    end.

Notation "'await' x ':=' m 'in' k" := (bind m (fun x => k))
  (at level 10, x name, m at level 100, k at level 200).
Notation "'perform' m 'in' k" := (bind m (fun _ => k))
  (at level 10, m at level 100, k at level 200).

(** ** Firestore: the [tasks] collection *)

Module Firestore.

(** The strings that name a document of a collection: one non-empty path
    component of at most 1500 bytes, other than [.] and [..] and not of the
    reserved form [__.*__]. For other strings [doc(id)] or the read itself
    fails, or [doc(id)] names another document. *)
Definition valid_doc_id (id : string) : bool :=
  negb (String.eqb id "") && negb (Js.occurs "/" id)
  && negb (String.eqb id ".") && negb (String.eqb id "..")
  && negb (String.prefix "__" id
           && String.eqb (String.substring (String.length id - 2) 2 id) "__"
           && (4 <=? String.length id)%nat)
  && (String.length id <=? 1500)%nat.

(** [db.collection('tasks').doc(id).get()] for an [id] that names a
    document of the collection ([valid_doc_id]): the snapshot, [None] when
    the document does not exist. *)
Definition doc_get (env : Env) (id : string) : M (option Task) :=
  fun w =>
    match get_error env with
    | Some e => (Throw e, w)
    | None => (Ok (tasks w !! id), w)
    end.

(** [db.collection('tasks').doc(id).update(fields)]: an unconditional
    merge of [fields] into the document; rejects when there is none. *)
Definition doc_update (env : Env) (id : string) (fields : Task → Task) : M unit :=
  fun w =>
    match update_error env with
    | Some e => (Throw e, w)
    | None =>
        match tasks w !! id with
        | Some t => (Ok tt, set_tasks (insert id (fields t)) w)
        | None => (Throw ("No document to update: " +:+ id), w)
        end
    end.

(** [.where('status', '==', 'completed')] followed by the field filter
    that [orderBy('completedAt')] implies: documents without the field
    are not part of an ordered result. *)
Definition where_completed (docs : list (string * Task)) : list (string * Z * Task) :=
  omap (fun d : string * Task =>
          if String.eqb (status d.2) "completed"
          then match completedAt d.2 with
               | Some c => Some (d.1, c, d.2)
               | None => None
               end
          else None) docs.

Fixpoint insert_desc (d : string * Z * Task) (l : list (string * Z * Task))
  : list (string * Z * Task) :=
  match l with
  | [] => [d]
  | e :: l' => if (e.1.2 <? d.1.2)%Z then d :: l else e :: insert_desc d l'
  end.

(** [.orderBy('completedAt', 'desc')]; documents with equal keys keep the
    collection's enumeration order. *)
Definition orderBy_completedAt_desc (l : list (string * Z * Task))
  : list (string * Z * Task) :=
  foldr insert_desc [] l.

(** The first document of a list is one with the greatest
    [completedAt]: what the ordering establishes. *)
Definition head_is_latest (l : list (string * Z * Task)) : Prop :=
  match l with
  | [] => True
  | x :: _ => ∀ y, y ∈ l → (y.1.2 ≤ x.1.2)%Z
  end.

Definition limit {A} (n : nat) (l : list A) : list A := take n l.

(** The query of [extractTaskId]:
    [where status == completed, orderBy completedAt desc, limit 1]. *)
Definition recent_completed (ts : gmap string Task) : list (string * Z * Task) :=
  limit 1 (orderBy_completedAt_desc (where_completed (map_to_list ts))).

Definition query_recent_completed (env : Env) : M (list (string * Z * Task)) :=
  fun w =>
    match query_error env with
    | Some e => (Throw e, w)
    | None => (Ok (recent_completed (tasks w)), w)
    end.

(** [db.collection('file_hashes').add(doc)] *)
Definition add_file_hash (env : Env) (doc : FileMetadata) : M unit :=
  fun w =>
    match add_error env with
    | Some e => (Throw e, w)
    | None => (Ok tt, set_file_hashes (fun l => l ++ [doc]) w)
    end.

End Firestore.

(** ** blockchain-service.js *)

Definition DEBUG_MODE : bool := true.

(** The service object: [admin] is the SDK handle given to the constructor
    ([false] when it is missing), [db] whether [this.db] is non-null. *)
Record BlockchainService := {
  admin : bool;
  db : bool
}.

(** [constructor(admin)]: [this.db = admin ? admin.firestore() : null]. *)
Definition new_BlockchainService (admin : bool) : BlockchainService :=
  {| admin := admin; db := if admin then true else false |}.

(** The [metadata] argument of the resolver. *)
Record Metadata := {
  taskId : option string;
  md_fileName : option string;
  md_fileSize : option N;
  md_uploadTimestamp : option N
}.

(** The object [verifyTask] and [sendToExternalSystem] resolve to. *)
Record Outcome := {
  success : bool;
  message : string;
  transactionId : option string;
  outcome_verificationResult : option bool
}.

Definition extractTaskId (svc : BlockchainService) (env : Env)
    (filePath : string) (metadata : Metadata) : M (option string) :=
  try_catch
    (if Js.truthy (taskId metadata) then ret (taskId metadata)
     else
       match Js.task_re filePath with
       | Some cap => ret (Some cap)
       | None =>
           if negb (db svc) then ret None
           else
             await tasksSnapshot := Firestore.query_recent_completed env in
             match tasksSnapshot with
             | d :: _ => ret (Some d.1.1)
             | [] => ret None
             end
       end)
    (fun _ => ret None).

(** The id [`MOCK_TX_${Date.now().toString(36)}_${Math.random().toString(36).substring(2, 7)}`]. *)
Definition mockTxId (env : Env) : string :=
  "MOCK_TX_" +:+ Js.toString36 (date_now env) +:+ "_"
  +:+ Js.substring 2 7 (random36 env).

(** [createMockTransaction]: computes the id; the only trace it leaves is
    the entry in [settlements] that records the call. *)
Definition createMockTransaction (env : Env)
    (taskId : string) (result : bool) (reportHash : string) : M string :=
  fun w =>
    let tx := mockTxId env in
    (Ok tx,
     set_settlements
       (fun l => l ++ [{| st_taskId := taskId; st_result := result;
                          st_reportHash := reportHash; st_tx := tx |}]) w).

(** The fields written by the update of [verifyTask]. *)
Definition verification_fields (env : Env) (result : bool) (reportHash tx : string)
    (t : Task) : Task :=
  {| status := if result then "verified" else "rejected";
     completedAt := completedAt t;
     verificationResult := Some result;
     verificationReportHash := Some reportHash;
     verificationTimestamp := Some (server_timestamp env);
     verificationTx := Some tx |}.

Definition rejected (msg : string) : Outcome :=
  {| success := false; message := msg; transactionId := None;
     outcome_verificationResult := None |}.

Definition verifyTask (svc : BlockchainService) (env : Env)
    (taskId : string) (result : bool) (reportHash : string) : M Outcome :=
  try_catch
    (if negb (db svc)
     then ret (rejected "Firestore not initialized, cannot verify task")
     else
       await taskDoc := Firestore.doc_get env taskId in
       match taskDoc with
       | None => throw ("Task not found: " +:+ taskId)
       | Some task =>
           if negb (String.eqb (status task) "completed")
           then throw ("Task must be completed before verification. Current status: "
                       +:+ status task)
           else
             match verificationResult task with
             | Some _ => ret (rejected "Task has already been verified")
             | None =>
                 await tx := (if DEBUG_MODE
                        then createMockTransaction env taskId result reportHash
                        else ret "NOT_IMPLEMENTED_YET") in
                 perform (if db svc && admin svc
                  then Firestore.doc_update env taskId
                               (verification_fields env result reportHash tx)
                  else ret tt) in
                 ret {| success := true;
                        message := "Task " +:+ taskId +:+ " verified successfully";
                        transactionId := Some tx;
                        outcome_verificationResult := Some result |}
             end
       end)
    (fun e => ret (rejected ("Error verifying task: " +:+ e))).

(** *** The orchestration as suspended steps

    [verifyTask] suspends at each [await]; between two suspensions it runs
    without interruption. [Phase] is the point a run has reached: before
    the read of the task document, before the checks on the snapshot it
    obtained, before the update, or finished with its outcome. *)
Inductive Phase :=
| Started
| Fetched (taskDoc : option Task)
| Settled (tx : string)
| Done (o : Outcome).

Definition verifyTask_step (svc : BlockchainService) (env : Env)
    (taskId : string) (result : bool) (reportHash : string)
    (p : Phase) (w : World) : Phase * World :=
  let failed e := Done (rejected ("Error verifying task: " +:+ e)) in
  match p with
  | Started =>
      if negb (db svc)
      then (Done (rejected "Firestore not initialized, cannot verify task"), w)
      else
        match Firestore.doc_get env taskId w with
        | (Ok taskDoc, w') => (Fetched taskDoc, w')
        | (Throw e, w') => (failed e, w')
        end
  | Fetched None => (failed ("Task not found: " +:+ taskId), w)
  | Fetched (Some task) =>
      if negb (String.eqb (status task) "completed")
      then (failed ("Task must be completed before verification. Current status: "
                    +:+ status task), w)
      else
        match verificationResult task with
        | Some _ => (Done (rejected "Task has already been verified"), w)
        | None =>
            match (if DEBUG_MODE
                   then createMockTransaction env taskId result reportHash
                   else ret "NOT_IMPLEMENTED_YET") w with
            | (Ok tx, w') => (Settled tx, w')
            | (Throw e, w') => (failed e, w')
            end
        end
  | Settled tx =>
      match (if db svc && admin svc
             then Firestore.doc_update env taskId
                    (verification_fields env result reportHash tx)
             else ret tt) w with
      | (Ok _, w') =>
          (Done {| success := true;
                   message := "Task " +:+ taskId +:+ " verified successfully";
                   transactionId := Some tx;
                   outcome_verificationResult := Some result |}, w')
      | (Throw e, w') => (failed e, w')
      end
  | Done o => (Done o, w)
  end.

(** Two orchestrations of the same task, [A] and [B], each with its own
    environment; a schedule says whose turn each step is ([true] for [A]). *)
Record Race := {
  runA : Phase;
  runB : Phase;
  world : World
}.

Definition race_step (svc : BlockchainService) (envA envB : Env)
    (taskId : string) (resA resB : bool) (hashA hashB : string)
    (turnA : bool) (r : Race) : Race :=
  if turnA
  then let '(p, w) := verifyTask_step svc envA taskId resA hashA (runA r) (world r) in
       {| runA := p; runB := runB r; world := w |}
  else let '(p, w) := verifyTask_step svc envB taskId resB hashB (runB r) (world r) in
       {| runA := runA r; runB := p; world := w |}.

Definition race (svc : BlockchainService) (envA envB : Env)
    (taskId : string) (resA resB : bool) (hashA hashB : string)
    (schedule : list bool) (w : World) : Race :=
  fold_left (fun r turnA => race_step svc envA envB taskId resA resB hashA hashB turnA r)
    schedule {| runA := Started; runB := Started; world := w |}.

(** The position in a schedule of the turn number [k] (from 0) of a run. *)
Fixpoint turn_index (who : bool) (k : nat) (schedule : list bool) : option nat :=
  match schedule with
  | [] => None
  | turn :: rest =>
      if Bool.eqb turn who
      then match k with
           | O => Some O
           | S k' => S <$> turn_index who k' rest
           end
      else S <$> turn_index who k rest
  end.

(** A schedule of the six steps of two runs in which each run reads the
    task (its first step) before the other updates it (its third step). *)
Definition both_read_before_either_updates (schedule : list bool) : bool :=
  (length schedule =? 6)%nat
  && match turn_index true 0 schedule, turn_index true 2 schedule,
           turn_index false 0 schedule, turn_index false 2 schedule with
     | Some readA, Some updateA, Some readB, Some updateB =>
         (readA <? updateB)%nat && (readB <? updateA)%nat
     | _, _, _, _ => false
     end.

(** A run reached [Recorded]: it finished with [success: true]. *)
Definition recorded (p : Phase) : bool :=
  match p with
  | Done o => success o
  | _ => false
  end.

(** ** index.js *)

(** [const blockchainService = new BlockchainService(admin)] *)
Definition blockchainService : BlockchainService := new_BlockchainService true.

Definition sendToExternalSystem (env : Env) (fileHash filePath : string)
    (metadata : Metadata) : M Outcome :=
  try_catch
    (await taskId := extractTaskId blockchainService env filePath metadata in
     if negb (Js.truthy taskId)
     then ret (rejected "Could not determine task ID for verification")
     else
       let verificationResult := true in
       await result := verifyTask blockchainService env (default "" taskId)
                         verificationResult fileHash in
       ret result)
    (fun e => ret (rejected ("Error during verification: " +:+ e))).

(** The [object] of a finalize event. *)
Record ObjectEvent := {
  obj_bucket : string;
  obj_name : string;
  obj_contentType : string;
  obj_size : N;
  obj_timeCreated : N
}.

Module Storage.

(** [file.download({destination})] *)
Definition download (env : Env) (path destination : string) : M unit :=
  fun w =>
    match download_error env with
    | Some e =>
        (Throw e,
         match download_partial env with
         | Some bytes => set_tmp_files (insert destination bytes) w
         | None => w
         end)
    | None =>
        match bucket w !! path with
        | Some bytes => (Ok tt, set_tmp_files (insert destination bytes) w)
        | None => (Throw ("No such object: " +:+ path), w)
        end
    end.

(** [file.setMetadata({metadata: {sha256Hash}})] *)
Definition setMetadata (env : Env) (path hash : string) : M unit :=
  fun w =>
    match setMetadata_error env with
    | Some e => (Throw e, w)
    | None => (Ok tt, set_object_metadata (insert path hash) w)
    end.

End Storage.

Module Fs.

Definition readFileSync (env : Env) (path : string) : M (list Byte.byte) :=
  fun w =>
    match read_error env with
    | Some e => (Throw e, w)
    | None =>
        match tmp_files w !! path with
        | Some bytes => (Ok bytes, w)
        | None => (Throw ("ENOENT: no such file or directory, open " +:+ path), w)
        end
    end.

Definition existsSync (path : string) : M bool :=
  fun w => (Ok (bool_decide (is_Some (tmp_files w !! path))), w).

Definition unlinkSync (env : Env) (path : string) : M unit :=
  fun w =>
    match unlink_error env with
    | Some e => (Throw e, w)
    | None =>
        match tmp_files w !! path with
        | Some _ => (Ok tt, set_tmp_files (delete path) w)
        | None => (Throw ("ENOENT: no such file or directory, unlink " +:+ path), w)
        end
    end.

End Fs.

(** The local path both the body and the error handler compute. *)
Definition tempFilePath (env : Env) (object : ObjectEvent) : string :=
  Js.join (os_tmpdir env) (Js.basename (obj_name object)).

(** The handler of [onFinalize]: [Ok None] is [return null], [Ok (Some h)]
    is [return fileHash], [Throw] a rejected invocation. *)
Definition processLogFileUpload (env : Env) (object : ObjectEvent) : M (option string) :=
  if negb (Js.startsWith "logs/" (obj_name object)) then ret None
  else
    let filePath := obj_name object in
    let contentType := obj_contentType object in
    let fileName := Js.basename filePath in
    let fileSize := obj_size object in
    let timestamp := obj_timeCreated object in
    try_catch
      (let tempFilePath := Js.join (os_tmpdir env) fileName in
       perform Storage.download env filePath tempFilePath in
       await fileBuffer := Fs.readFileSync env tempFilePath in
       let fileHash := sha256_hex env fileBuffer in
       let fileMetadata :=
         {| fileName := fileName; filePath := filePath;
            contentType := contentType; sizeBytes := fileSize;
            uploadTimestamp := timestamp; sha256Hash := fileHash;
            processedTimestamp := timestamp_now env |} in
       perform Firestore.add_file_hash env fileMetadata in
       perform Storage.setMetadata env filePath fileHash in
       await verificationResult :=
         sendToExternalSystem env fileHash filePath
           {| taskId := None; md_fileName := Some fileName;
              md_fileSize := Some fileSize;
              md_uploadTimestamp := Some timestamp |} in
       perform Fs.unlinkSync env tempFilePath in
       ret (Some fileHash))
      (fun error =>
         perform try_catch
           (let tempFilePath := Js.join (os_tmpdir env) fileName in
            await present := Fs.existsSync tempFilePath in
            if present then Fs.unlinkSync env tempFilePath else ret tt)
           (fun cleanupError => ret tt) in
         throw error).

(** ** firestore.rules *)

Module Rules.

Inductive Method := Get | List | Create | Update | Delete.

(** The two method groups an [allow] statement of the file names. *)
Inductive Access := Read | Write.

Definition covers (a : Access) (m : Method) : bool :=
  match a, m with
  | Read, (Get | List) => true
  | Write, (Create | Update | Delete) => true
  | _, _ => false
  end.

Record Request := {
  auth : option string;
  method : Method
}.

(** Path segments of a [match]: a literal, [{name}], or [{name=**}]. *)
Inductive Segment :=
| Lit (s : string)
| Single (name : string)
| Recursive (name : string).

Inductive Cond :=
| AuthNotNull
| Const (b : bool).

Definition eval (c : Cond) (req : Request) : bool :=
  match c with
  | AuthNotNull => bool_decide (is_Some (auth req))
  | Const b => b
  end.

Record Allow := {
  accesses : list Access;
  condition : Cond
}.

Unset Elimination Schemes.
Inductive MatchBlock :=
| Block (pattern : list Segment) (allows : list Allow) (nested : list MatchBlock).
Set Elimination Schemes.

(** Matching a pattern against the head of a path: the part of the path
    left over. Under [rules_version = '2'] a recursive wildcard takes
    the rest of the path, which may be empty. *)
Fixpoint match_pattern (pattern : list Segment) (path : list string)
  : option (list string) :=
  match pattern, path with
  | [], _ => Some path
  | Recursive _ :: _, _ => Some []
  | Lit s :: pattern', seg :: path' =>
      if String.eqb s seg then match_pattern pattern' path' else None
  | Single _ :: pattern', _ :: path' => match_pattern pattern' path'
  | _ :: _, [] => None
  end.

Definition grants (req : Request) (a : Allow) : bool :=
  existsb (fun acc => covers acc (method req)) (accesses a) && eval (condition a) req.

(** A request is allowed when some [allow] of some block matching the
    whole path grants it. *)
Fixpoint allowed (b : MatchBlock) (path : list string) (req : Request) : bool :=
  match b with
  | Block pattern allows nested =>
      match match_pattern pattern path with
      | None => false
      | Some rest =>
          (match rest with [] => existsb (grants req) allows | _ => false end)
          || (fix any (bs : list MatchBlock) : bool :=
                match bs with
                | [] => false
                | b' :: bs' => allowed b' rest req || any bs'
                end) nested
      end
  end.

Definition firestore_rules : MatchBlock :=
  Block [Lit "databases"; Single "database"; Lit "documents"] []
    [ Block [Lit "file_hashes"; Recursive "document"]
        [ {| accesses := [Read; Write]; condition := AuthNotNull |} ] [];
      Block [Recursive "document"]
        [ {| accesses := [Read; Write]; condition := Const false |} ] [] ].

(** The resource name of a document of database [database]. *)
Definition resource (database : string) (document : list string) : list string :=
  "databases" :: database :: "documents" :: document.

End Rules.

(** ** The resolution order, in the words of the specification

    These predicates say what the three sources of a task id are without
    reference to how the resolver computes them. *)

Module Spec.

(** [metadata.taskId] is present and non-empty. *)
Definition metadata_id (md : Metadata) (t : string) : Prop :=
  taskId md = Some t ∧ t ≠ "".

(** A match of [task-<alphanumeric>] starts at the head of [s]. *)
Definition match_at_head (s : string) : Prop :=
  ∃ c r, s = "task-" +:+ String c r ∧ Js.is_alnum c = true.

(** [cap] is the token of the first match in [filePath]: the longest
    alphanumeric run after the leftmost [task-] that is followed by an
    alphanumeric character. *)
Definition first_task_token (filePath cap : string) : Prop :=
  ∃ pre rest,
    filePath = pre +:+ "task-" +:+ cap +:+ rest
    ∧ cap ≠ "" ∧ Js.all_alnum cap = true ∧ Js.starts_alnum rest = false
    ∧ ∀ pre' suf, filePath = pre' +:+ suf →
        (String.length pre' < String.length pre)%nat → ¬ match_at_head suf.

Definition no_task_token (filePath : string) : Prop :=
  ∀ pre suf, filePath = pre +:+ suf → ¬ match_at_head suf.

(** Task [id] has status [completed] and was completed at [c]. *)
Definition completed_at (ts : gmap string Task) (id : string) (c : Z) : Prop :=
  ∃ t, ts !! id = Some t ∧ status t = "completed" ∧ completedAt t = Some c.

(** [id] is a most recently completed task: no completed task has a
    later [completedAt]. *)
Definition most_recent_completed (ts : gmap string Task) (id : string) : Prop :=
  ∃ c, completed_at ts id c ∧ ∀ id' c', completed_at ts id' c' → (c' ≤ c)%Z.

Definition NotFound : option string := None.

End Spec.

(** ** What a run may write

    [only_verified_writes w w'] relates the state before and after a
    computation that changes task documents only into documents with
    status [verified] and [verificationResult = true], and that makes
    settlement calls only with the result [true]. *)
Definition only_verified_writes (w w' : World) : Prop :=
  (∀ id t', tasks w' !! id = Some t' →
            tasks w !! id = Some t'
            ∨ (status t' = "verified" ∧ verificationResult t' = Some true))
  ∧ ∃ calls, settlements w' = settlements w ++ calls
             ∧ Forall (fun s => st_result s = true) calls.

(** A relation that holds across a computation from every state. *)
Definition respects (R : World → World → Prop) {A} (m : M A) : Prop :=
  ∀ w, R w (m w).2.

(** ** What a run leaves alone

    [same_outside_tasks w w'] says that a computation has changed nothing
    but the [tasks] collection and the trace of settlement calls. *)
Definition same_outside_tasks (w w' : World) : Prop :=
  file_hashes w' = file_hashes w ∧ bucket w' = bucket w
  ∧ object_metadata w' = object_metadata w ∧ tmp_files w' = tmp_files w.

(** What every run of the upload handler for the object [name] keeps: the
    bucket is not written, provenance records are only appended, object
    metadata changes at most for [name], and no task document is created
    or deleted. *)
Definition handler_frame (name : string) (w w' : World) : Prop :=
  bucket w' = bucket w
  ∧ (∃ l, file_hashes w' = file_hashes w ++ l)
  ∧ (∀ p, p ≠ name → object_metadata w' !! p = object_metadata w !! p)
  ∧ dom (tasks w') = dom (tasks w).

(** The entry of the trace for a settlement call made with [env]. *)
Definition settlement_of (env : Env) (id : string) (result : bool) (hash : string)
    : Settlement :=
  {| st_taskId := id; st_result := result; st_reportHash := hash;
     st_tx := mockTxId env |}.

(** The outcome of a run that reached [Recorded]. *)
Definition recorded_outcome (env : Env) (id : string) (result : bool) : Outcome :=
  {| success := true;
     message := "Task " +:+ id +:+ " verified successfully";
     transactionId := Some (mockTxId env);
     outcome_verificationResult := Some result |}.

(** The provenance record the handler writes for [object] with content
    [bytes]. *)
Definition provenance_record (env : Env) (object : ObjectEvent)
    (bytes : list Byte.byte) : FileMetadata :=
  {| fileName := Js.basename (obj_name object);
     filePath := obj_name object;
     contentType := obj_contentType object;
     sizeBytes := obj_size object;
     uploadTimestamp := obj_timeCreated object;
     sha256Hash := sha256_hex env bytes;
     processedTimestamp := timestamp_now env |}.

(** The [metadata] object the handler passes to [sendToExternalSystem]:
    it has no [taskId]. *)
Definition upload_metadata (object : ObjectEvent) : Metadata :=
  {| taskId := None;
     md_fileName := Some (Js.basename (obj_name object));
     md_fileSize := Some (obj_size object);
     md_uploadTimestamp := Some (obj_timeCreated object) |}.

(** The state once the handler has made its local copy of [bytes], written
    the provenance record and tagged the object. *)
Definition after_storage (env : Env) (object : ObjectEvent)
    (bytes : list Byte.byte) (w : World) : World :=
  set_object_metadata (insert (obj_name object) (sha256_hex env bytes))
    (set_file_hashes (fun l => l ++ [provenance_record env object bytes])
       (set_tmp_files (insert (tempFilePath env object) bytes) w)).

(** The storage side of an invocation works: the object is there and is
    downloaded, read, recorded and tagged, and the copy can be deleted. *)
Definition storage_ok (env : Env) (object : ObjectEvent)
    (bytes : list Byte.byte) (w : World) : Prop :=
  Js.startsWith "logs/" (obj_name object) = true
  ∧ download_error env = None
  ∧ bucket w !! obj_name object = Some bytes
  ∧ read_error env = None
  ∧ add_error env = None
  ∧ setMetadata_error env = None
  ∧ unlink_error env = None.

(** As [storage_ok], except that the deletion of the local copy is refused
    with the error [e]. *)
Definition storage_ok_but_unlink (env : Env) (object : ObjectEvent)
    (bytes : list Byte.byte) (w : World) (e : string) : Prop :=
  Js.startsWith "logs/" (obj_name object) = true
  ∧ download_error env = None
  ∧ bucket w !! obj_name object = Some bytes
  ∧ read_error env = None
  ∧ add_error env = None
  ∧ setMetadata_error env = None
  ∧ unlink_error env = Some e.

(** The task [t] is one [verifyTask] would verify. *)
Definition eligible (t : Task) : Prop :=
  status t = "completed" ∧ verificationResult t = None.

(** ** Sample data

    Concrete environments and states on which the definitions are run. *)

Module Sample.

(** An environment in which every collaborator call succeeds. Its digest
    routine is a stand-in with two values, one for the empty file and one for
    every other content. *)
Definition env : Env :=
  {| os_tmpdir := "/tmp";
     sha256_hex := fun bytes =>
       match bytes with
       | [] => "e3b0c44298fc1c149afbf4c8996fb92427ae41e4649b934ca495991b7852b855"
       | _ => "9f86d081884c7d659a2feaa0c55ad015a3bf4f1b2b0b822cd15d6c15b0f00a08"
       end;
     timestamp_now := 1730486400123;
     date_now := 1730486400456;
     random36 := "0.k2j5l8xq";
     server_timestamp := 1730486400789;
     download_error := None;
     download_partial := None;
     read_error := None;
     add_error := None;
     setMetadata_error := None;
     query_error := None;
     get_error := None;
     update_error := None;
     unlink_error := None |}.

Definition with_random (r : string) (e : Env) : Env :=
  {| os_tmpdir := os_tmpdir e; sha256_hex := sha256_hex e;
     timestamp_now := timestamp_now e; date_now := date_now e;
     random36 := r; server_timestamp := server_timestamp e;
     download_error := download_error e;
     download_partial := download_partial e;
     read_error := read_error e; add_error := add_error e;
     setMetadata_error := setMetadata_error e;
     query_error := query_error e; get_error := get_error e;
     update_error := update_error e; unlink_error := unlink_error e |}.

Definition with_date_now (now : N) (e : Env) : Env :=
  {| os_tmpdir := os_tmpdir e; sha256_hex := sha256_hex e;
     timestamp_now := timestamp_now e; date_now := now;
     random36 := random36 e; server_timestamp := server_timestamp e;
     download_error := download_error e;
     download_partial := download_partial e;
     read_error := read_error e; add_error := add_error e;
     setMetadata_error := setMetadata_error e;
     query_error := query_error e; get_error := get_error e;
     update_error := update_error e; unlink_error := unlink_error e |}.

Definition with_setMetadata_error (msg : string) (e : Env) : Env :=
  {| os_tmpdir := os_tmpdir e; sha256_hex := sha256_hex e;
     timestamp_now := timestamp_now e; date_now := date_now e;
     random36 := random36 e; server_timestamp := server_timestamp e;
     download_error := download_error e;
     download_partial := download_partial e;
     read_error := read_error e; add_error := add_error e;
     setMetadata_error := Some msg;
     query_error := query_error e; get_error := get_error e;
     update_error := update_error e; unlink_error := unlink_error e |}.

Definition with_unlink_error (msg : string) (e : Env) : Env :=
  {| os_tmpdir := os_tmpdir e; sha256_hex := sha256_hex e;
     timestamp_now := timestamp_now e; date_now := date_now e;
     random36 := random36 e; server_timestamp := server_timestamp e;
     download_error := download_error e;
     download_partial := download_partial e;
     read_error := read_error e; add_error := add_error e;
     setMetadata_error := setMetadata_error e;
     query_error := query_error e; get_error := get_error e;
     update_error := update_error e; unlink_error := Some msg |}.

Definition with_update_error (msg : string) (e : Env) : Env :=
  {| os_tmpdir := os_tmpdir e; sha256_hex := sha256_hex e;
     timestamp_now := timestamp_now e; date_now := date_now e;
     random36 := random36 e; server_timestamp := server_timestamp e;
     download_error := download_error e;
     download_partial := download_partial e;
     read_error := read_error e; add_error := add_error e;
     setMetadata_error := setMetadata_error e;
     query_error := query_error e; get_error := get_error e;
     update_error := Some msg; unlink_error := unlink_error e |}.

Definition with_add_error (msg : string) (e : Env) : Env :=
  {| os_tmpdir := os_tmpdir e; sha256_hex := sha256_hex e;
     timestamp_now := timestamp_now e; date_now := date_now e;
     random36 := random36 e; server_timestamp := server_timestamp e;
     download_error := download_error e;
     download_partial := download_partial e;
     read_error := read_error e; add_error := Some msg;
     setMetadata_error := setMetadata_error e;
     query_error := query_error e; get_error := get_error e;
     update_error := update_error e; unlink_error := unlink_error e |}.

Definition with_query_error (msg : string) (e : Env) : Env :=
  {| os_tmpdir := os_tmpdir e; sha256_hex := sha256_hex e;
     timestamp_now := timestamp_now e; date_now := date_now e;
     random36 := random36 e; server_timestamp := server_timestamp e;
     download_error := download_error e;
     download_partial := download_partial e;
     read_error := read_error e; add_error := add_error e;
     setMetadata_error := setMetadata_error e;
     query_error := Some msg; get_error := get_error e;
     update_error := update_error e; unlink_error := unlink_error e |}.

Definition completed (at_ : Z) : Task :=
  {| status := "completed"; completedAt := Some at_;
     verificationResult := None; verificationReportHash := None;
     verificationTimestamp := None; verificationTx := None |}.

Definition pending : Task :=
  {| status := "pending"; completedAt := None;
     verificationResult := None; verificationReportHash := None;
     verificationTimestamp := None; verificationTx := None |}.

Definition verified : Task :=
  {| status := "verified"; completedAt := Some 100%Z;
     verificationResult := Some true; verificationReportHash := Some "aa";
     verificationTimestamp := Some 7; verificationTx := Some "MOCK_TX_1_abcde" |}.

Definition world (ts : gmap string Task) : World :=
  {| tasks := ts; file_hashes := [];
     bucket := {[ "logs/task-ABC123-flight.bin" := []; "logs/flight.bin" := [] ]};
     object_metadata := ∅; tmp_files := ∅; settlements := [] |}.

Definition metadata (id : option string) : Metadata :=
  {| taskId := id; md_fileName := None; md_fileSize := None;
     md_uploadTimestamp := None |}.

Definition event (name : string) : ObjectEvent :=
  {| obj_bucket := "df-autopilot.firebasestorage.app"; obj_name := name;
     obj_contentType := "application/octet-stream"; obj_size := 0;
     obj_timeCreated := 1730486400000 |}.

End Sample.

(** * Properties *)

(** ** The helpers on sample inputs *)

Example task_re_ex1 : Js.task_re "logs/task-ABC123-flight.bin" = Some "ABC123".
Proof. reflexivity. Qed.

Example task_re_ex2 : Js.task_re "logs/task--x/task-9_a" = Some "9".
Proof. reflexivity. Qed.

Example task_re_ex3 : Js.task_re "logs/flight.bin" = None.
Proof. reflexivity. Qed.

Example toString36_ex : Js.toString36 1730486400000 = "m2z2x7uo".
Proof. vm_compute. reflexivity. Qed.

Example basename_ex : Js.basename "logs/a/b.bin" = "b.bin" /\ Js.basename "logs/" = "logs".
Proof. split; reflexivity. Qed.

(** ** Reasoning about computations *)

Lemma bind_Ok_inv {A B} (m : M A) (k : A → M B) w b w' :
  bind m k w = (Ok b, w') →
  ∃ a w1, m w = (Ok a, w1) ∧ k a w1 = (Ok b, w').
Proof.
  unfold bind. destruct (m w) as [[a|e] w1]; intros H; [eauto | discriminate].
Qed.

Lemma bind_Throw_inv {A B} (m : M A) (k : A → M B) w e w' :
  bind m k w = (Throw e, w') →
  m w = (Throw e, w') ∨ ∃ a w1, m w = (Ok a, w1) ∧ k a w1 = (Throw e, w').
Proof.
  unfold bind. destruct (m w) as [[a|e1] w1]; intros H; [right; eauto | left; congruence].
Qed.

(** A relation between the state before and after that holds across every
    primitive holds across computations built from them. *)
Section Respects.

Variable R : World → World → Prop.
Hypothesis R_refl : ∀ w, R w w.
Hypothesis R_trans : ∀ w1 w2 w3, R w1 w2 → R w2 w3 → R w1 w3.

Lemma respects_ret {A} (a : A) : respects R (ret a).
Proof. intros w. apply R_refl. Qed.

Lemma respects_throw {A} e : respects R (@throw A e).
Proof. intros w. apply R_refl. Qed.

Lemma respects_bind {A B} (m : M A) (k : A → M B) :
  respects R m → (∀ a, respects R (k a)) → respects R (bind m k).
Proof.
  intros Hm Hk w. unfold bind. specialize (Hm w).
  destruct (m w) as [[a|e] w1]; simpl in *; [|exact Hm].
  eapply R_trans; [exact Hm | apply Hk].
Qed.

Lemma respects_try_catch {A} (m : M A) (h : string → M A) :
  respects R m → (∀ e, respects R (h e)) → respects R (try_catch m h).
Proof.
  intros Hm Hh w. unfold try_catch. specialize (Hm w).
  destruct (m w) as [[a|e] w1]; simpl in *; [exact Hm|].
  eapply R_trans; [exact Hm | apply Hh].
Qed.

Lemma respects_if {A} (b : bool) (m1 m2 : M A) :
  respects R m1 → respects R m2 → respects R (if b then m1 else m2).
Proof. destruct b; auto. Qed.

End Respects.

(** [verifyTask] and the resolver never throw: every failure is turned into
    a value by their own [catch]. *)
Lemma try_catch_total {A} (m : M A) (h : string → A) w :
  ∃ a w', try_catch m (fun e => ret (h e)) w = (Ok a, w').
Proof.
  unfold try_catch, ret. destruct (m w) as [[a|e] w1]; eauto.
Qed.

Lemma verifyTask_total svc env id result hash w :
  ∃ o w', verifyTask svc env id result hash w = (Ok o, w').
Proof. apply try_catch_total. Qed.

Lemma extractTaskId_total svc env filePath md w :
  ∃ r w', extractTaskId svc env filePath md w = (Ok r, w').
Proof. apply (try_catch_total _ (fun _ => None)). Qed.

(** The suspended steps, run without interruption, are [verifyTask]. *)
Lemma verifyTask_steps svc env id result hash w :
  let s1 := verifyTask_step svc env id result hash Started w in
  let s2 := verifyTask_step svc env id result hash s1.1 s1.2 in
  let s3 := verifyTask_step svc env id result hash s2.1 s2.2 in
  ∃ o, s3.1 = Done o ∧ verifyTask svc env id result hash w = (Ok o, s3.2).
Proof.
  destruct svc as [a d].
  unfold verifyTask, verifyTask_step, try_catch, bind, ret, throw,
    Firestore.doc_get, Firestore.doc_update, createMockTransaction, DEBUG_MODE.
  cbn -[String.append String.eqb].
  destruct d; cbn -[String.append String.eqb]; [|eexists; split; reflexivity].
  destruct (get_error env) as [e|]; cbn -[String.append String.eqb];
    [eexists; split; reflexivity|].
  destruct (tasks w !! id) as [t|] eqn:Ht; cbn -[String.append String.eqb];
    [|eexists; split; reflexivity].
  destruct (String.eqb (status t) "completed"); cbn -[String.append String.eqb];
    [|eexists; split; reflexivity].
  destruct (verificationResult t); cbn -[String.append String.eqb];
    [eexists; split; reflexivity|].
  destruct a; cbn -[String.append String.eqb]; [|eexists; split; reflexivity].
  destruct (update_error env); cbn -[String.append String.eqb];
    [eexists; split; reflexivity|].
  rewrite Ht. cbn -[String.append String.eqb]. eexists; split; reflexivity.
Qed.

(** ** The orchestrator's gates *)

Lemma eqb_completed_false (t : Task) :
  status t ≠ "completed" → String.eqb (status t) "completed" = false.
Proof. intros H. by apply String.eqb_neq. Qed.

(** A run that meets a task that is not completed, or already verified,
    changes nothing and reports failure. *)
Lemma verifyTask_ineligible svc env id result hash w t :
  tasks w !! id = Some t →
  status t ≠ "completed" ∨ is_Some (verificationResult t) →
  ∃ o, verifyTask svc env id result hash w = (Ok o, w)
       ∧ success o = false ∧ transactionId o = None.
Proof.
  intros Ht Hin.
  unfold verifyTask, try_catch, bind, ret, throw, Firestore.doc_get.
  destruct (db svc); cbn -[String.append String.eqb]; [|eauto].
  destruct (get_error env); [eauto|]. rewrite Ht.
  destruct (String.eqb (status t) "completed") eqn:E;
    cbn -[String.append String.eqb]; [|eauto].
  apply String.eqb_eq in E.
  destruct Hin as [Hs|[b Hb]]; [done|]. rewrite Hb. eauto.
Qed.

(** A run that reports success has left the task with a verification
    result. *)
Lemma verifyTask_success_sets_result a env id result hash w o w' :
  verifyTask (new_BlockchainService a) env id result hash w = (Ok o, w') →
  success o = true →
  ∃ t, tasks w' !! id = Some t ∧ verificationResult t = Some result
       ∧ status t = (if result then "verified" else "rejected").
Proof.
  unfold verifyTask, try_catch, bind, ret, throw, Firestore.doc_get,
    Firestore.doc_update, createMockTransaction, DEBUG_MODE.
  destruct a; cbn -[String.append String.eqb]; [|intros [= <- <-]; done].
  destruct (get_error env); [intros [= <- <-]; done|].
  destruct (tasks w !! id) as [t|] eqn:Ht; cbn -[String.append String.eqb];
    [|intros [= <- <-]; done].
  destruct (String.eqb (status t) "completed");
    cbn -[String.append String.eqb]; [|intros [= <- <-]; done].
  destruct (verificationResult t); cbn -[String.append String.eqb];
    [intros [= <- <-]; done|].
  destruct (update_error env); [intros [= <- <-]; done|].
  rewrite Ht. cbn -[String.append String.eqb]. intros [= <- <-] _.
  eexists. split; [apply lookup_insert_eq|]. done.
Qed.

(** C1. A task whose [verificationResult] is set is left untouched by a run
    of [verifyTask]: the whole state, the task document and the trace of
    settlement calls included, is unchanged, and the outcome has
    [success = false] and no transaction id. In particular the run that
    follows a successful run on the same task settles nothing. *)
Theorem verifyTask_write_once (a : bool) (env : Env) (id : string)
    (result : bool) (hash : string) (w : World) :
  (∀ svc t b,
      tasks w !! id = Some t → verificationResult t = Some b →
      ∃ o, verifyTask svc env id result hash w = (Ok o, w)
           ∧ success o = false ∧ transactionId o = None)
  ∧ (∀ o w',
      verifyTask (new_BlockchainService a) env id result hash w = (Ok o, w') →
      success o = true →
      ∀ env2 result2 hash2,
        ∃ o2, verifyTask (new_BlockchainService a) env2 id result2 hash2 w' = (Ok o2, w')
              ∧ success o2 = false ∧ transactionId o2 = None).
Proof.
  split.
  - intros svc t b Ht Hb. eapply verifyTask_ineligible; [exact Ht|].
    right. rewrite Hb. eauto.
  - intros o w' Hrun Hok env2 result2 hash2.
    destruct (verifyTask_success_sets_result _ _ _ _ _ _ _ _ Hrun Hok)
      as (t & Ht & Hres & _).
    eapply verifyTask_ineligible; [exact Ht|]. right. rewrite Hres. eauto.
Qed.

(** C4. A task whose status is not [completed] is rejected: the outcome has
    [success = false] and no transaction id, and the run ends in the state
    it started from, so no task field is changed and the trace of
    settlement calls has not grown. *)
Theorem verifyTask_not_completed_rejected (svc : BlockchainService) (env : Env)
    (id : string) (result : bool) (hash : string) (w : World) (t : Task) :
  tasks w !! id = Some t →
  status t ≠ "completed" →
  ∃ o, verifyTask svc env id result hash w = (Ok o, w)
       ∧ success o = false ∧ transactionId o = None.
Proof.
  intros Ht Hs.
  exact (verifyTask_ineligible svc env id result hash w t Ht (or_introl Hs)).
Qed.

Lemma verifyTask_write_once_witness :
  (∃ o, verifyTask blockchainService Sample.env "T1" false "bb"
          (Sample.world {[ "T1" := Sample.verified ]})
        = (Ok o, Sample.world {[ "T1" := Sample.verified ]})
        ∧ success o = false ∧ transactionId o = None)
  ∧ (∃ o2, verifyTask blockchainService Sample.env "T1" false "bb"
             (verifyTask blockchainService Sample.env "T1" true "aa"
                (Sample.world {[ "T1" := Sample.completed 5 ]})).2
           = (Ok o2, (verifyTask blockchainService Sample.env "T1" true "aa"
                        (Sample.world {[ "T1" := Sample.completed 5 ]})).2)
           ∧ success o2 = false ∧ transactionId o2 = None).
Proof.
  split.
  - apply (proj1 (verifyTask_write_once true Sample.env "T1" false "bb"
                    (Sample.world {[ "T1" := Sample.verified ]}))
             blockchainService Sample.verified true); reflexivity.
  - apply (proj2 (verifyTask_write_once true Sample.env "T1" true "aa"
                    (Sample.world {[ "T1" := Sample.completed 5 ]}))
             {| success := true; message := "Task T1 verified successfully";
                transactionId := Some (mockTxId Sample.env);
                outcome_verificationResult := Some true |}
             (verifyTask blockchainService Sample.env "T1" true "aa"
                (Sample.world {[ "T1" := Sample.completed 5 ]})).2);
      [vm_compute; reflexivity | reflexivity].
Defined.

Lemma verifyTask_not_completed_rejected_witness :
  ∃ o, verifyTask blockchainService Sample.env "T1" true "aa"
         (Sample.world {[ "T1" := Sample.pending ]})
       = (Ok o, Sample.world {[ "T1" := Sample.pending ]})
       ∧ success o = false ∧ transactionId o = None.
Proof.
  apply (verifyTask_not_completed_rejected blockchainService Sample.env "T1" true "aa"
           (Sample.world {[ "T1" := Sample.pending ]}) Sample.pending);
    [reflexivity | discriminate].
Defined.

(** ** The pattern [task-<alphanumeric>] *)

Lemma append_cons c (a b : string) : String c a +:+ b = String c (a +:+ b).
Proof. reflexivity. Qed.

Lemma strip_prefix_app p r : Js.strip_prefix p (p +:+ r) = Some r.
Proof.
  induction p as [|a p IH]; simpl; [by destruct r|].
  by rewrite Ascii.eqb_refl.
Qed.

Lemma strip_prefix_Some p s r : Js.strip_prefix p s = Some r → s = p +:+ r.
Proof.
  revert s. induction p as [|a p IH]; intros s; simpl.
  - destruct s; intros [= <-]; reflexivity.
  - destruct s as [|b s]; [discriminate|].
    destruct (Ascii.eqb_spec a b) as [->|]; [|discriminate].
    intros H. by rewrite (IH _ H).
Qed.

Lemma alnum_run_app cap rest :
  Js.all_alnum cap = true → Js.starts_alnum rest = false →
  Js.alnum_run (cap +:+ rest) = cap.
Proof.
  induction cap as [|c cap IH]; simpl; intros Hc Hr.
  - destruct rest as [|c r]; simpl in *; [done|]. by rewrite Hr.
  - apply andb_true_iff in Hc as [Hc1 Hc2]. rewrite Hc1. by rewrite IH.
Qed.

Lemma alnum_run_split s :
  ∃ rest, s = Js.alnum_run s +:+ rest
          ∧ Js.all_alnum (Js.alnum_run s) = true ∧ Js.starts_alnum rest = false.
Proof.
  induction s as [|c s (rest & Hs & Ha & Hr)]; simpl.
  - by exists EmptyString.
  - destruct (Js.is_alnum c) eqn:Hc; simpl.
    + exists rest. rewrite Hc, Ha. split; [|done].
      change (String c s = String c (Js.alnum_run s +:+ rest)). by rewrite <- Hs.
    + exists (String c s). simpl. by rewrite Hc.
Qed.

Lemma task_re_here_complete cap rest :
  cap ≠ "" → Js.all_alnum cap = true → Js.starts_alnum rest = false →
  Js.task_re_here ("task-" +:+ cap +:+ rest) = Some cap.
Proof.
  intros Hne Ha Hr. unfold Js.task_re_here.
  rewrite strip_prefix_app, alnum_run_app by done. by destruct cap.
Qed.

Lemma task_re_here_sound s cap :
  Js.task_re_here s = Some cap →
  ∃ rest, s = "task-" +:+ cap +:+ rest
          ∧ cap ≠ "" ∧ Js.all_alnum cap = true ∧ Js.starts_alnum rest = false.
Proof.
  unfold Js.task_re_here.
  destruct (Js.strip_prefix "task-" s) as [r|] eqn:Hp; [|discriminate].
  apply strip_prefix_Some in Hp as ->.
  destruct (alnum_run_split r) as (rest & Hr & Ha & Hs).
  destruct (Js.alnum_run r) as [|c run] eqn:Hrun; [discriminate|].
  intros [= <-]. exists rest. by rewrite Hr at 1.
Qed.

Lemma task_re_here_None s : ¬ Spec.match_at_head s → Js.task_re_here s = None.
Proof.
  intros Hn. destruct (Js.task_re_here s) as [cap|] eqn:H; [|done].
  apply task_re_here_sound in H as (rest & -> & Hne & Ha & _).
  destruct cap as [|c cap]; [done|]. simpl in Ha.
  apply andb_true_iff in Ha as [Hc _]. destruct Hn. by exists c, (cap +:+ rest).
Qed.

Lemma task_re_here_match s : Spec.match_at_head s → is_Some (Js.task_re_here s).
Proof.
  intros (c & r & -> & Hc). unfold Js.task_re_here.
  rewrite strip_prefix_app. simpl. rewrite Hc. eauto.
Qed.

Lemma task_re_unfold s :
  Js.task_re s =
  match Js.task_re_here s with
  | Some cap => Some cap
  | None => match s with EmptyString => None | String _ r => Js.task_re r end
  end.
Proof. by destruct s. Qed.

(** The scan returns the token of the first match... *)
Lemma task_re_first filePath cap :
  Spec.first_task_token filePath cap → Js.task_re filePath = Some cap.
Proof.
  intros (pre & rest & -> & Hne & Ha & Hr & Hleft).
  induction pre as [|c pre IH].
  - rewrite task_re_unfold. change (EmptyString +:+ ?x) with x.
    by rewrite task_re_here_complete.
  - rewrite task_re_unfold.
    rewrite task_re_here_None
      by (apply (Hleft EmptyString); [done | simpl; lia]).
    change (String c pre +:+ ?x) with (String c (pre +:+ x)).
    apply IH. intros pre' suf Heq Hlen.
    apply (Hleft (String c pre')); 
      [by rewrite (append_cons c pre), (append_cons c pre'), Heq | simpl; lia].
Qed.

(** ... and nothing when the path has no match. *)
Lemma task_re_none filePath :
  Spec.no_task_token filePath → Js.task_re filePath = None.
Proof.
  induction filePath as [|c s IH]; intros Hno; rewrite task_re_unfold;
    rewrite task_re_here_None by (by apply (Hno EmptyString)); [done|].
  apply IH. intros pre suf -> . by apply (Hno (String c pre)).
Qed.

(** Conversely, whatever the scan returns is the token of the first match. *)
Lemma task_re_sound filePath cap :
  Js.task_re filePath = Some cap → Spec.first_task_token filePath cap.
Proof.
  induction filePath as [|c s IH]; rewrite task_re_unfold.
  - destruct (Js.task_re_here "") eqn:H; [discriminate H | done].
  - destruct (Js.task_re_here (String c s)) as [cap'|] eqn:H.
    + intros [= ->]. apply task_re_here_sound in H as (rest & Hs & Hne & Ha & Hr).
      exists EmptyString, rest. repeat split; try done. simpl. lia.
    + intros (pre & rest & -> & Hne & Ha & Hr & Hleft)%IH.
      exists (String c pre), rest. repeat split; try done.
      intros [|c' pre'] suf Heq Hlen Hm.
      * change (EmptyString +:+ suf) with suf in Heq. subst suf.
        apply task_re_here_match in Hm as [x Hx].
        change (Js.task_re_here (String c (pre +:+ "task-" +:+ cap +:+ rest)) = Some x) in Hx.
        congruence.
      * rewrite (append_cons c' pre') in Heq.
        injection Heq as -> Heq.
        apply (Hleft pre' suf Heq); [simpl in Hlen; lia | done].
Qed.

Lemma task_re_None_inv filePath :
  Js.task_re filePath = None → Spec.no_task_token filePath.
Proof.
  induction filePath as [|c s IH]; rewrite task_re_unfold.
  - intros _ [|c pre] suf Heq; [|discriminate Heq].
    change (EmptyString +:+ suf) with suf in Heq. subst suf.
    intros (c & r & Hs & _). discriminate Hs.
  - destruct (Js.task_re_here (String c s)) as [cap|] eqn:H; [discriminate|].
    intros Hs [|c' pre] suf Heq.
    + change (EmptyString +:+ suf) with suf in Heq. subst suf.
      intros [x Hx]%task_re_here_match. congruence.
    + rewrite append_cons in Heq. injection Heq as -> Heq.
      by apply (IH Hs pre).
Qed.

(** ** The query for the most recently completed task *)

Lemma elem_of_where_completed (ts : gmap string Task) id c t :
  (id, c, t) ∈ Firestore.where_completed (map_to_list ts)
  ↔ ts !! id = Some t ∧ status t = "completed" ∧ completedAt t = Some c.
Proof.
  unfold Firestore.where_completed. rewrite list_elem_of_omap. split.
  - intros ([id' t'] & Hin & Hf). apply elem_of_map_to_list in Hin. simpl in Hf.
    destruct (String.eqb_spec (status t') "completed") as [Hs|]; [|discriminate].
    destruct (completedAt t') as [c'|] eqn:Hc; [|discriminate].
    injection Hf as -> -> ->. done.
  - intros (Ht & Hs & Hc). exists (id, t). split; [by apply elem_of_map_to_list|].
    simpl. rewrite Hs, Hc. done.
Qed.

Lemma elem_of_insert_desc x d l :
  x ∈ Firestore.insert_desc d l ↔ x = d ∨ x ∈ l.
Proof.
  induction l as [|e l IH]; simpl.
  - rewrite list_elem_of_singleton, elem_of_nil. tauto.
  - destruct (e.1.2 <? d.1.2)%Z; [apply elem_of_cons|].
    rewrite !elem_of_cons, IH. tauto.
Qed.

Lemma elem_of_orderBy x l :
  x ∈ Firestore.orderBy_completedAt_desc l ↔ x ∈ l.
Proof.
  unfold Firestore.orderBy_completedAt_desc.
  induction l as [|e l IH]; simpl; [done|].
  rewrite elem_of_insert_desc, elem_of_cons, IH. done.
Qed.

Lemma insert_desc_head d l :
  Firestore.head_is_latest l → Firestore.head_is_latest (Firestore.insert_desc d l).
Proof.
  destruct l as [|e l]; simpl.
  - intros _ y ->%list_elem_of_singleton. lia.
  - intros He. destruct (Z.ltb_spec e.1.2 d.1.2) as [Hlt|Hge].
    + intros y [->|Hy]%elem_of_cons; [lia|]. specialize (He y Hy). lia.
    + intros y [->|[->|Hy]%elem_of_insert_desc]%elem_of_cons; [lia|lia|].
      apply He. by right.
Qed.

Lemma orderBy_head l : Firestore.head_is_latest (Firestore.orderBy_completedAt_desc l).
Proof.
  unfold Firestore.orderBy_completedAt_desc.
  induction l as [|e l IH]; simpl; [done|]. by apply insert_desc_head.
Qed.

(** The query returns a most recently completed task when there is a
    completed task, and nothing otherwise. *)
Lemma recent_completed_spec (ts : gmap string Task) :
  match Firestore.recent_completed ts with
  | [] => ∀ id c, ¬ Spec.completed_at ts id c
  | d :: _ => Spec.most_recent_completed ts d.1.1
  end.
Proof.
  unfold Firestore.recent_completed, Firestore.limit.
  pose proof (orderBy_head (Firestore.where_completed (map_to_list ts))) as Hmax.
  pose proof (fun x => elem_of_orderBy x (Firestore.where_completed (map_to_list ts)))
    as Hmem.
  destruct (Firestore.orderBy_completedAt_desc _) as [|[[id c] t] l]; simpl.
  - intros id c (t & Ht). apply elem_of_where_completed in Ht.
    apply Hmem in Ht. by apply elem_of_nil in Ht.
  - exists c. split.
    + exists t. apply elem_of_where_completed, Hmem. by left.
    + intros id' c' (t' & Ht'). apply elem_of_where_completed, Hmem in Ht'.
      exact (Hmax _ Ht').
Qed.

(** ** The task resolver *)

Lemma truthy_metadata_id md t :
  Spec.metadata_id md t → Js.truthy (taskId md) = true.
Proof.
  intros [-> Hne]. simpl. by apply negb_true_iff, String.eqb_neq.
Qed.

Lemma falsy_metadata_id md :
  (∀ t, ¬ Spec.metadata_id md t) → Js.truthy (taskId md) = false.
Proof.
  intros H. unfold Js.truthy. destruct (taskId md) as [t|] eqn:Ht; [|done].
  destruct (String.eqb_spec t ""); [done|]. destruct (H t). by split.
Qed.

(** C3. The resolver follows the order of the specification, the first
    source that applies winning: a present, non-empty [metadata.taskId] is
    returned as it is, whatever the store holds; otherwise the token of the
    first match of [task-<alphanumeric>] in the path; otherwise, with the
    store reachable and its query answered, a most recently completed task
    ([status = completed], greatest [completedAt]) when there is one, and
    [NotFound] when there is none. The resolver changes no state. *)
Theorem extractTaskId_precedence (svc : BlockchainService) (env : Env)
    (filePath : string) (md : Metadata) (w : World) :
  (∀ t, Spec.metadata_id md t →
        extractTaskId svc env filePath md w = (Ok (Some t), w))
  ∧ ((∀ t, ¬ Spec.metadata_id md t) →
     ∀ cap, Spec.first_task_token filePath cap →
            extractTaskId svc env filePath md w = (Ok (Some cap), w))
  ∧ ((∀ t, ¬ Spec.metadata_id md t) →
     Spec.no_task_token filePath →
     db svc = true → query_error env = None →
     ((∃ id c, Spec.completed_at (tasks w) id c) →
      ∃ id, extractTaskId svc env filePath md w = (Ok (Some id), w)
            ∧ Spec.most_recent_completed (tasks w) id)
     ∧ ((∀ id c, ¬ Spec.completed_at (tasks w) id c) →
        extractTaskId svc env filePath md w = (Ok Spec.NotFound, w))).
Proof.
  unfold extractTaskId, try_catch. split; [|split].
  - intros t Ht. rewrite (truthy_metadata_id _ _ Ht).
    destruct Ht as [-> _]. done.
  - intros Hmd cap Hcap.
    rewrite (falsy_metadata_id _ Hmd), (task_re_first _ _ Hcap). done.
  - intros Hmd Hno Hdb Hq.
    rewrite (falsy_metadata_id _ Hmd), (task_re_none _ Hno), Hdb.
    unfold bind, Firestore.query_recent_completed, ret. rewrite Hq. simpl.
    pose proof (recent_completed_spec (tasks w)) as Hspec.
    destruct (Firestore.recent_completed (tasks w)) as [|d l]; split.
    + intros (id & c & Hc). by destruct (Hspec id c).
    + done.
    + intros _. by exists d.1.1.
    + intros Hnone. destruct Hspec as (c & Hc & _). by destruct (Hnone d.1.1 c).
Qed.

(** C7. With no task id in the metadata and no match in the path, a query
    that raises is swallowed by the resolver: it returns [null] and leaves
    the state as it was, which is exactly what it returns when the query
    is answered and finds no completed task; the caller
    [sendToExternalSystem] reports the same outcome in both cases. *)
Theorem extractTaskId_query_error_swallowed (svc : BlockchainService) (env : Env)
    (filePath : string) (md : Metadata) (w : World) (e : string) :
  Js.truthy (taskId md) = false →
  Js.task_re filePath = None →
  query_error env = Some e →
  extractTaskId svc env filePath md w = (Ok None, w)
  ∧ (∀ svc2 env2 w2,
       query_error env2 = None →
       (∀ id c, ¬ Spec.completed_at (tasks w2) id c) →
       extractTaskId svc2 env2 filePath md w2 = (Ok None, w2))
  ∧ (∀ hash env2 w2,
       query_error env2 = None →
       (∀ id c, ¬ Spec.completed_at (tasks w2) id c) →
       (sendToExternalSystem env hash filePath md w).1
       = (sendToExternalSystem env2 hash filePath md w2).1).
Proof.
  intros Hmd Hre Hq.
  assert (Herr : ∀ s, extractTaskId s env filePath md w = (Ok None, w)).
  { intros s. unfold extractTaskId, try_catch, bind, Firestore.query_recent_completed.
    rewrite Hmd, Hre, Hq. by destruct (db s). }
  assert (Hnone : ∀ svc2 env2 w2,
             query_error env2 = None →
             (∀ id c, ¬ Spec.completed_at (tasks w2) id c) →
             extractTaskId svc2 env2 filePath md w2 = (Ok None, w2)).
  { intros svc2 env2 w2 Hq2 Hno.
    unfold extractTaskId, try_catch, bind, Firestore.query_recent_completed, ret.
    rewrite Hmd, Hre, Hq2. destruct (db svc2); simpl; [|done].
    pose proof (recent_completed_spec (tasks w2)) as Hspec.
    destruct (Firestore.recent_completed (tasks w2)) as [|d l]; [done|].
    destruct Hspec as (c & Hc & _). by destruct (Hno d.1.1 c). }
  split; [apply Herr|]. split; [exact Hnone|].
  intros hash env2 w2 Hq2 Hno. unfold sendToExternalSystem, try_catch, bind.
  rewrite Herr, (Hnone _ _ _ Hq2 Hno). reflexivity.
Qed.

Lemma extractTaskId_precedence_witness :
  extractTaskId blockchainService Sample.env "logs/task-T2-flight.bin"
    (Sample.metadata (Some "T1"))
    (Sample.world {[ "T9" := Sample.completed 9 ]})
  = (Ok (Some "T1"), Sample.world {[ "T9" := Sample.completed 9 ]})
  ∧ extractTaskId blockchainService Sample.env "logs/task-ABC123-flight.bin"
      (Sample.metadata None)
      (Sample.world ∅)
    = (Ok (Some "ABC123"), Sample.world ∅)
  ∧ (∃ id, extractTaskId blockchainService Sample.env "logs/flight.bin"
             (Sample.metadata (Some ""))
             (Sample.world {[ "T8" := Sample.completed 8; "T9" := Sample.completed 9;
                              "T7" := Sample.pending ]})
           = (Ok (Some id),
              Sample.world {[ "T8" := Sample.completed 8; "T9" := Sample.completed 9;
                              "T7" := Sample.pending ]})
           ∧ Spec.most_recent_completed
               {[ "T8" := Sample.completed 8; "T9" := Sample.completed 9;
                  "T7" := Sample.pending ]} id)
  ∧ extractTaskId blockchainService Sample.env "logs/flight.bin"
      (Sample.metadata None)
      (Sample.world {[ "T7" := Sample.pending ]})
    = (Ok None, Sample.world {[ "T7" := Sample.pending ]}).
Proof.
  split; [|split; [|split]].
  - apply (proj1 (extractTaskId_precedence _ _ _ _ _)). by split.
  - apply (proj1 (proj2 (extractTaskId_precedence _ _ _ _ _))).
    + intros t [H _]. discriminate H.
    + apply task_re_sound. reflexivity.
  - apply (proj1 (proj2 (proj2 (extractTaskId_precedence blockchainService Sample.env
             "logs/flight.bin" (Sample.metadata (Some "")) (Sample.world _)))
             ltac:(intros t [H1 H2]; apply H2; by injection H1)
             (task_re_None_inv "logs/flight.bin" eq_refl) eq_refl eq_refl)).
    exists "T8", 8%Z, (Sample.completed 8). by vm_compute.
  - apply (proj2 (proj2 (proj2 (extractTaskId_precedence blockchainService Sample.env
             "logs/flight.bin" (Sample.metadata None) (Sample.world _)))
             ltac:(intros t [H _]; discriminate H)
             (task_re_None_inv "logs/flight.bin" eq_refl) eq_refl eq_refl)).
    intros id c (t & Ht & Hs & _). simpl in Ht.
    apply lookup_singleton_Some in Ht as [_ <-]. discriminate Hs.
Defined.

Lemma extractTaskId_query_error_swallowed_witness :
  extractTaskId blockchainService (Sample.with_query_error "UNAVAILABLE" Sample.env)
    "logs/flight.bin"
    (Sample.metadata None)
    (Sample.world {[ "T9" := Sample.completed 9 ]})
  = (Ok None, Sample.world {[ "T9" := Sample.completed 9 ]}).
Proof.
  apply (proj1 (extractTaskId_query_error_swallowed blockchainService
                  (Sample.with_query_error "UNAVAILABLE" Sample.env) "logs/flight.bin"
                  (Sample.metadata None)
                  (Sample.world {[ "T9" := Sample.completed 9 ]}) "UNAVAILABLE"
                  eq_refl eq_refl eq_refl)).
Defined.

Example extractTaskId_most_recent :
  (extractTaskId blockchainService Sample.env "logs/flight.bin"
     (Sample.metadata None)
     (Sample.world {[ "T8" := Sample.completed 8; "T9" := Sample.completed 9;
                      "T7" := Sample.pending ]})).1
  = Ok (Some "T9").
Proof. vm_compute. reflexivity. Qed.

(** ** Access rules *)

Example rules_authenticated_write :
  Rules.allowed Rules.firestore_rules (Rules.resource "(default)" ["file_hashes"; "abc"])
    {| Rules.auth := Some "uid-1"; Rules.method := Rules.Create |} = true.
Proof. reflexivity. Qed.

Example rules_anonymous_read :
  Rules.allowed Rules.firestore_rules (Rules.resource "(default)" ["file_hashes"; "abc"])
    {| Rules.auth := None; Rules.method := Rules.Get |} = false.
Proof. reflexivity. Qed.

Example rules_tasks_denied :
  Rules.allowed Rules.firestore_rules (Rules.resource "(default)" ["tasks"; "T1"])
    {| Rules.auth := Some "uid-1"; Rules.method := Rules.Get |} = false.
Proof. reflexivity. Qed.

Lemma covers_read_or_write m :
  existsb (fun acc => Rules.covers acc m) [Rules.Read; Rules.Write] = true.
Proof. by destruct m. Qed.

(** C9. The rules allow a request, whatever its method (the reads [get]
    and [list], the writes [create], [update] and [delete]), exactly when
    the document lies under [file_hashes] and the request carries an
    authenticated principal; every request on a path outside that
    collection is denied. *)
Theorem firestore_rules_access (database : string) (document : list string)
    (req : Rules.Request) :
  Rules.allowed Rules.firestore_rules (Rules.resource database document) req = true
  ↔ (∃ rest, document = "file_hashes" :: rest) ∧ Rules.auth req ≠ None.
Proof.
  unfold Rules.firestore_rules, Rules.resource.
  cbn -[String.eqb]. rewrite !String.eqb_refl.
  destruct document as [|seg rest]; cbn -[String.eqb].
  - unfold Rules.grants. cbn. rewrite andb_false_r. split; [done|].
    by intros [[rest [=]] _].
  - assert (Hdeny : Rules.grants req
                      {| Rules.accesses := [Rules.Read; Rules.Write];
                         Rules.condition := Rules.Const false |} = false)
      by apply andb_false_r.
    assert (Hauth : Rules.grants req
                      {| Rules.accesses := [Rules.Read; Rules.Write];
                         Rules.condition := Rules.AuthNotNull |}
                    = bool_decide (is_Some (Rules.auth req))).
    { unfold Rules.grants. cbn [Rules.accesses Rules.condition Rules.eval].
      by rewrite covers_read_or_write. }
    rewrite Hdeny, Hauth. clear Hdeny Hauth.
    destruct (String.eqb "file_hashes" seg) eqn:Heq; cbn.
    + apply String.eqb_eq in Heq. subst seg. rewrite !orb_false_r. destruct (Rules.auth req) as [u|]; cbn.
      * split; [|done]. intros _. split; [by exists rest | done].
      * split; [done|]. by intros [_ []].
    + apply String.eqb_neq in Heq. split; [done|].
      intros [[rest' [= Hs _]] _]. congruence.
Qed.

(** ** Mock transaction ids *)

Section Base36.

(** A property of the 36 digits is checked digit by digit. *)
Lemma digits_forallb (f : N → bool) :
  forallb f (N.of_nat <$> seq 0 36) = true → ∀ d, d < 36 → f d = true.
Proof.
  intros Hf d Hd. rewrite forallb_forall in Hf. apply Hf.
  apply list_elem_of_In, list_elem_of_fmap. exists (N.to_nat d). split; [lia|].
  apply elem_of_seq. lia.
Qed.

Lemma value36_digit36 d : d < 36 → Js.value36 (Js.digit36 d) = d.
Proof.
  intros Hd. apply N.eqb_eq.
  by apply (digits_forallb (fun d => Js.value36 (Js.digit36 d) =? d)).
Qed.

Lemma digit36_not_underscore d : d < 36 → Ascii.eqb "_" (Js.digit36 d) = false.
Proof.
  intros Hd. apply negb_true_iff.
  by apply (digits_forallb (fun d => negb (Ascii.eqb "_" (Js.digit36 d)))).
Qed.

Lemma parse36_toString36_aux fuel : ∀ n acc,
  n < 36 ^ N.of_nat fuel →
  Js.parse36 (Js.toString36_aux fuel n acc) 0 = Js.parse36 acc n.
Proof.
  induction fuel as [|fuel IH]; intros n acc Hn.
  - simpl in *. by replace n with 0 by lia.
  - assert (Hmod : n mod 36 < 36) by (apply N.mod_lt; lia).
    pose proof (N.div_mod n 36 ltac:(lia)) as Hdm.
    cbn [Js.toString36_aux]. destruct (N.eqb_spec (n / 36) 0) as [Hz|Hnz].
    + cbn [Js.parse36]. rewrite value36_digit36 by done. f_equal. lia.
    + rewrite IH.
      * cbn [Js.parse36]. rewrite value36_digit36 by done. f_equal. lia.
      * apply N.Div0.div_lt_upper_bound.
        rewrite Nat2N.inj_succ, N.pow_succ_r' in Hn. lia.
Qed.

Lemma enough_fuel n : n < 36 ^ N.of_nat (S (N.to_nat (N.log2 n))).
Proof.
  rewrite Nat2N.inj_succ, N2Nat.id.
  destruct (N.eq_dec n 0) as [->|Hn]; [done|].
  destruct (N.log2_spec n ltac:(lia)) as [_ Hlt].
  eapply N.lt_le_trans; [exact Hlt|].
  apply N.pow_le_mono_l. lia.
Qed.

Lemma parse36_toString36 n : Js.parse36 (Js.toString36 n) 0 = n.
Proof.
  unfold Js.toString36. by rewrite parse36_toString36_aux by apply enough_fuel.
Qed.

(** [toString(36)] is injective: distinct clock readings are rendered
    differently. *)
Lemma toString36_inj n m : Js.toString36 n = Js.toString36 m → n = m.
Proof.
  intros H. by rewrite <- (parse36_toString36 n), H, parse36_toString36.
Qed.

Lemma toString36_aux_no_underscore fuel : ∀ n acc,
  Js.occurs "_" acc = false →
  Js.occurs "_" (Js.toString36_aux fuel n acc) = false.
Proof.
  induction fuel as [|fuel IH]; intros n acc Hacc; [done|].
  assert (Hmod : n mod 36 < 36) by (apply N.mod_lt; lia).
  assert (Hacc' : Js.occurs "_" (String (Js.digit36 (n mod 36)) acc) = false).
  { cbn [Js.occurs]. by rewrite digit36_not_underscore, Hacc. }
  cbn [Js.toString36_aux]. destruct (n / 36 =? 0); [done|]. by apply IH.
Qed.

Lemma toString36_no_underscore n : Js.occurs "_" (Js.toString36 n) = false.
Proof. by apply toString36_aux_no_underscore. Qed.

End Base36.

(** Two strings without [_], each followed by [_] and a suffix: the
    concatenations agree only if both parts do. *)
Lemma split_at_underscore a b s t :
  Js.occurs "_" a = false → Js.occurs "_" b = false →
  a +:+ "_" +:+ s = b +:+ "_" +:+ t → a = b ∧ s = t.
Proof.
  revert b. induction a as [|c a IH]; intros [|d b] Ha Hb Heq.
  - by injection Heq.
  - injection Heq as <- _. cbn in Hb. discriminate Hb.
  - injection Heq as -> _. cbn in Ha. discriminate Ha.
  - rewrite !append_cons in Heq. injection Heq as <- Heq.
    cbn [Js.occurs] in Ha, Hb. apply orb_false_iff in Ha as [_ Ha].
    apply orb_false_iff in Hb as [_ Hb].
    destruct (IH b Ha Hb Heq) as [-> ->]. done.
Qed.

Lemma mockTxId_eq_iff env1 env2 :
  mockTxId env1 = mockTxId env2
  ↔ date_now env1 = date_now env2
    ∧ Js.substring 2 7 (random36 env1) = Js.substring 2 7 (random36 env2).
Proof.
  unfold mockTxId. split.
  - intros H. apply (f_equal (Js.strip_prefix "MOCK_TX_")) in H.
    rewrite !strip_prefix_app in H. injection H as H.
    apply split_at_underscore in H as [Hd Hr];
      try apply toString36_no_underscore.
    split; [by apply toString36_inj | done].
  - by intros [-> ->].
Qed.

(** C8, as the code has it. The id is a function of the millisecond clock
    reading and of the first five characters after [0.] of the random draw:
    two calls return the same id exactly when they agree on both, and
    distinct ids otherwise. Every call succeeds, and it touches neither
    collection, nor the bucket, the object metadata or the local files. *)
Theorem createMockTransaction_ids (env1 env2 : Env) (id : string)
    (result : bool) (hash : string) (w : World) :
  (mockTxId env1 = mockTxId env2
   ↔ date_now env1 = date_now env2
     ∧ Js.substring 2 7 (random36 env1) = Js.substring 2 7 (random36 env2))
  ∧ ∃ w', createMockTransaction env1 id result hash w = (Ok (mockTxId env1), w')
          ∧ tasks w' = tasks w ∧ file_hashes w' = file_hashes w
          ∧ bucket w' = bucket w ∧ object_metadata w' = object_metadata w
          ∧ tmp_files w' = tmp_files w.
Proof.
  split; [apply mockTxId_eq_iff|]. eexists. split; [reflexivity|]. done.
Qed.

(** C8, as stated, fails: two calls in the same millisecond whose random
    draws differ only after the fifth character return the same id. *)
Lemma createMockTransaction_collision :
  ¬ (∀ env1 env2,
       (date_now env1, random36 env1) ≠ (date_now env2, random36 env2) →
       mockTxId env1 ≠ mockTxId env2).
Proof.
  intros H.
  apply (H Sample.env (Sample.with_random "0.k2j5l9zz" Sample.env)); [done|].
  by vm_compute.
Qed.

(** ** What the pipeline writes *)

Lemma writes_refl w : only_verified_writes w w.
Proof.
  split; [by left|]. exists []. by rewrite app_nil_r.
Qed.

Lemma writes_trans w1 w2 w3 :
  only_verified_writes w1 w2 → only_verified_writes w2 w3 →
  only_verified_writes w1 w3.
Proof.
  intros [Ht1 (l1 & Hs1 & Hl1)] [Ht2 (l2 & Hs2 & Hl2)]. split.
  - intros id t Ht. destruct (Ht2 id t Ht) as [H|H]; [by apply Ht1 | by right].
  - exists (l1 ++ l2). split; [by rewrite Hs2, Hs1, app_assoc|].
    by apply Forall_app.
Qed.

(** A computation that touches neither the tasks nor the trace. *)
Lemma respects_frame {A} (m : M A) :
  (∀ w, tasks (m w).2 = tasks w ∧ settlements (m w).2 = settlements w) →
  respects only_verified_writes m.
Proof.
  intros H w. destruct (H w) as [Ht Hs]. split.
  - intros id t. rewrite Ht. by left.
  - exists []. by rewrite app_nil_r.
Qed.

Lemma respects_doc_get env id : respects only_verified_writes (Firestore.doc_get env id).
Proof.
  apply respects_frame. intros w. unfold Firestore.doc_get.
  by destruct (get_error env).
Qed.

Lemma respects_query env :
  respects only_verified_writes (Firestore.query_recent_completed env).
Proof.
  apply respects_frame. intros w. unfold Firestore.query_recent_completed.
  by destruct (query_error env).
Qed.

Lemma respects_add env doc :
  respects only_verified_writes (Firestore.add_file_hash env doc).
Proof.
  apply respects_frame. intros w. unfold Firestore.add_file_hash.
  by destruct (add_error env).
Qed.

Lemma respects_download env path dest :
  respects only_verified_writes (Storage.download env path dest).
Proof.
  apply respects_frame. intros w. unfold Storage.download.
  destruct (download_error env); [by destruct (download_partial env)|].
  by destruct (bucket w !! path).
Qed.

Lemma respects_setMetadata env path hash :
  respects only_verified_writes (Storage.setMetadata env path hash).
Proof.
  apply respects_frame. intros w. unfold Storage.setMetadata.
  by destruct (setMetadata_error env).
Qed.

Lemma respects_readFileSync env path :
  respects only_verified_writes (Fs.readFileSync env path).
Proof.
  apply respects_frame. intros w. unfold Fs.readFileSync.
  destruct (read_error env); [done|]. by destruct (tmp_files w !! path).
Qed.

Lemma respects_existsSync path : respects only_verified_writes (Fs.existsSync path).
Proof. by apply respects_frame. Qed.

Lemma respects_unlinkSync env path :
  respects only_verified_writes (Fs.unlinkSync env path).
Proof.
  apply respects_frame. intros w. unfold Fs.unlinkSync.
  destruct (unlink_error env); [done|]. by destruct (tmp_files w !! path).
Qed.

Lemma respects_createMockTransaction env id hash :
  respects only_verified_writes (createMockTransaction env id true hash).
Proof.
  intros w. split; [by left|]. eexists. split; [reflexivity|].
  by repeat constructor.
Qed.

Lemma respects_doc_update env id hash tx :
  respects only_verified_writes
    (Firestore.doc_update env id (verification_fields env true hash tx)).
Proof.
  intros w. unfold Firestore.doc_update.
  destruct (update_error env); [apply writes_refl|].
  destruct (tasks w !! id) as [t|] eqn:Ht; [|apply writes_refl].
  split; [|exists []; by rewrite app_nil_r].
  intros id' t'. cbn. destruct (decide (id = id')) as [<-|Hne].
  - rewrite lookup_insert_eq. intros [= <-]. by right.
  - rewrite lookup_insert_ne by done. by left.
Qed.

Create HintDb respects.
#[local] Hint Resolve writes_refl writes_trans respects_doc_get respects_query
  respects_add respects_download respects_setMetadata respects_readFileSync
  respects_existsSync respects_unlinkSync respects_createMockTransaction
  respects_doc_update : respects.

Ltac respects_step :=
  first
    [ apply (respects_try_catch _ writes_trans); [ | intros ?]
    | apply (respects_bind _ writes_trans); [ | intros ?]
    | apply (respects_ret _ writes_refl)
    | apply (respects_throw _ writes_refl)
    | apply respects_if
    | solve [auto with respects] ].

Lemma respects_extractTaskId svc env filePath md :
  respects only_verified_writes (extractTaskId svc env filePath md).
Proof.
  unfold extractTaskId. respects_step; [|respects_step].
  destruct (Js.truthy (taskId md)); [respects_step|].
  destruct (Js.task_re filePath); [respects_step|].
  destruct (negb (db svc)); [respects_step|].
  respects_step; [respects_step|]. destruct a; respects_step.
Qed.

(** With [true] as its result argument, [verifyTask] writes nothing but
    [verified]/[true]. *)
Lemma respects_verifyTask svc env id hash :
  respects only_verified_writes (verifyTask svc env id true hash).
Proof.
  unfold verifyTask, DEBUG_MODE. respects_step; [|respects_step].
  destruct (negb (db svc)); [respects_step|].
  respects_step; [respects_step|]. destruct a as [task|]; [|respects_step].
  destruct (negb _); [respects_step|].
  destruct (verificationResult task); [respects_step|].
  respects_step; [respects_step|].
  respects_step; [|respects_step].
  destruct (db svc && admin svc); respects_step.
Qed.

Lemma respects_sendToExternalSystem env hash filePath md :
  respects only_verified_writes (sendToExternalSystem env hash filePath md).
Proof.
  unfold sendToExternalSystem. respects_step; [|respects_step].
  respects_step; [apply respects_extractTaskId|].
  destruct (negb _); [respects_step|].
  respects_step; [apply respects_verifyTask | respects_step].
Qed.

Lemma respects_processLogFileUpload env object :
  respects only_verified_writes (processLogFileUpload env object).
Proof.
  unfold processLogFileUpload.
  destruct (negb _); [respects_step|]. cbn zeta.
  respects_step.
  - do 4 (respects_step; [respects_step|]).
    respects_step; [apply respects_sendToExternalSystem|].
    respects_step; respects_step.
  - respects_step; [|respects_step].
    respects_step; [|respects_step].
    respects_step; [respects_step|]. destruct a; respects_step.
Qed.

(** C10. The pipeline hands the constant [true] to [verifyTask]: every
    settlement call made during a run of the upload handler carries the
    result [true], and a task document that the run changed has status
    [verified] and [verificationResult = true]. No run of the handler
    produces a task with status [rejected] that was not there before. *)
Theorem pipeline_writes_verified_only (env : Env) (object : ObjectEvent) (w : World) :
  let w' := (processLogFileUpload env object w).2 in
  (∀ id t', tasks w' !! id = Some t' →
            tasks w !! id = Some t'
            ∨ (status t' = "verified" ∧ verificationResult t' = Some true))
  ∧ (∃ calls, settlements w' = settlements w ++ calls
              ∧ Forall (fun s => st_result s = true) calls)
  ∧ (∀ id t', tasks w' !! id = Some t' → status t' = "rejected" →
              tasks w !! id = Some t').
Proof.
  destruct (respects_processLogFileUpload env object w) as [Ht Hs].
  split; [exact Ht|]. split; [exact Hs|].
  intros id t' Hl Hrej. destruct (Ht id t' Hl) as [H|[H _]]; [done|].
  rewrite H in Hrej. discriminate Hrej.
Qed.

Lemma pipeline_writes_verified_only_witness :
  tasks (processLogFileUpload Sample.env
           (Sample.event "logs/task-ABC123-flight.bin")
           (Sample.world {[ "ABC123" := Sample.completed 5 ]})).2
    !! "ABC123"
  = Some (verification_fields Sample.env true (sha256_hex Sample.env [])
            (mockTxId Sample.env) (Sample.completed 5))
  ∧ status (verification_fields Sample.env true (sha256_hex Sample.env [])
              (mockTxId Sample.env) (Sample.completed 5)) = "verified"
  ∧ verificationResult
      (verification_fields Sample.env true (sha256_hex Sample.env [])
         (mockTxId Sample.env) (Sample.completed 5)) = Some true.
Proof.
  assert (Hl : tasks (processLogFileUpload Sample.env
                        (Sample.event "logs/task-ABC123-flight.bin")
                        (Sample.world {[ "ABC123" := Sample.completed 5 ]})).2
                 !! "ABC123"
               = Some (verification_fields Sample.env true (sha256_hex Sample.env [])
                         (mockTxId Sample.env) (Sample.completed 5)))
    by (vm_compute; reflexivity).
  split; [exact Hl|].
  destruct (proj1 (pipeline_writes_verified_only Sample.env
                     (Sample.event "logs/task-ABC123-flight.bin")
                     (Sample.world {[ "ABC123" := Sample.completed 5 ]}))
              "ABC123" _ Hl) as [H|H];
    [vm_compute in H; discriminate H | exact H].
Defined.

(** ** The temporary copy *)

Lemma try_catch_post {A} (m : M A) (h : string → M A) (P : World → Prop) w :
  (∀ a w1, m w = (Ok a, w1) → P w1) →
  (∀ e w1, m w = (Throw e, w1) → P (h e w1).2) →
  P (try_catch m h w).2.
Proof.
  intros Hok Herr. unfold try_catch.
  destruct (m w) as [[a|e] w1]; [by apply (Hok a) | by apply Herr].
Qed.

Lemma unlinkSync_Ok env path w u w' :
  Fs.unlinkSync env path w = (Ok u, w') → tmp_files w' !! path = None.
Proof.
  unfold Fs.unlinkSync. destruct (unlink_error env); [discriminate|].
  destruct (tmp_files w !! path); [|discriminate].
  intros [= _ <-]. apply lookup_delete_eq.
Qed.

(** The cleanup of the error handler leaves no file at [path], provided
    the deletion itself is not refused. *)
Lemma cleanup_removes env path w :
  unlink_error env = None →
  tmp_files
    (try_catch
       (await present := Fs.existsSync path in
        if present then Fs.unlinkSync env path else ret tt)
       (fun _ => ret tt) w).2 !! path = None.
Proof.
  intros Hu. unfold try_catch, bind, Fs.existsSync, Fs.unlinkSync, ret.
  rewrite Hu. case_bool_decide as Hp.
  - destruct Hp as [bytes Hb]. rewrite Hb. apply lookup_delete_eq.
  - by apply eq_None_not_Some.
Qed.

(** C6, as the code has it. For an object under [logs/], whatever the
    outcome of the download, of reading and hashing, of the provenance
    write, of the tagging and of the verification, the invocation ends
    with no file at the temporary path, provided the file system does not
    refuse the deletion itself: on normal completion the body has deleted
    the copy, on an exception the handler has. *)
Theorem temp_copy_removed (env : Env) (object : ObjectEvent) (w : World) :
  Js.startsWith "logs/" (obj_name object) = true →
  unlink_error env = None →
  tmp_files (processLogFileUpload env object w).2 !! tempFilePath env object = None.
Proof.
  intros Hlogs Hu. unfold processLogFileUpload, tempFilePath.
  rewrite Hlogs. cbn [negb]. cbn zeta.
  set (path := Js.join (os_tmpdir env) (Js.basename (obj_name object))).
  apply (try_catch_post _ _ (fun w' => tmp_files w' !! path = None)).
  - intros r w1 Hbody.
    apply bind_Ok_inv in Hbody as (? & ? & _ & Hbody).
    apply bind_Ok_inv in Hbody as (? & ? & _ & Hbody).
    apply bind_Ok_inv in Hbody as (? & ? & _ & Hbody).
    apply bind_Ok_inv in Hbody as (? & ? & _ & Hbody).
    apply bind_Ok_inv in Hbody as (? & ? & _ & Hbody).
    apply bind_Ok_inv in Hbody as (u & w2 & Hunlink & Hret).
    injection Hret as _ <-. by apply unlinkSync_Ok in Hunlink.
  - intros e w1 _. unfold bind at 1.
    pose proof (cleanup_removes env path w1 Hu) as Hclean.
    destruct (try_catch _ _ w1) as [[u|e'] w2]; exact Hclean.
Qed.

Lemma temp_copy_removed_witness :
  tmp_files (processLogFileUpload
               (Sample.with_setMetadata_error "tagging failed" Sample.env)
               (Sample.event "logs/task-ABC123-flight.bin")
               (Sample.world {[ "ABC123" := Sample.completed 5 ]})).2
    !! "/tmp/task-ABC123-flight.bin" = None.
Proof.
  apply (temp_copy_removed
           (Sample.with_setMetadata_error "tagging failed" Sample.env)
           (Sample.event "logs/task-ABC123-flight.bin")
           (Sample.world {[ "ABC123" := Sample.completed 5 ]}));
    reflexivity.
Defined.

(** C6, as stated, fails: the deletion can itself be refused. On this
    upload the tagging call raises and the file system refuses the
    deletion that the handler then attempts; the handler catches that
    refusal, rethrows the tagging error, and the invocation ends with the
    copy still at the temporary path. *)
Lemma temp_copy_left_after_tagging_failure :
  ¬ (∀ env object w,
       Js.startsWith "logs/" (obj_name object) = true →
       tmp_files (processLogFileUpload env object w).2 !! tempFilePath env object
       = None).
Proof.
  intros H.
  specialize (H (Sample.with_unlink_error "EPERM"
                   (Sample.with_setMetadata_error "tagging failed" Sample.env))
                (Sample.event "logs/task-ABC123-flight.bin")
                (Sample.world {[ "ABC123" := Sample.completed 5 ]}) eq_refl).
  vm_compute in H. discriminate H.
Qed.

Example tagging_failure_and_refused_unlink :
  processLogFileUpload
    (Sample.with_unlink_error "EPERM"
       (Sample.with_setMetadata_error "tagging failed" Sample.env))
    (Sample.event "logs/task-ABC123-flight.bin")
    (Sample.world {[ "ABC123" := Sample.completed 5 ]})
  = (Throw "tagging failed",
     set_tmp_files (insert "/tmp/task-ABC123-flight.bin" [])
       (set_file_hashes
          (fun _ => [provenance_record
                       (Sample.with_unlink_error "EPERM"
                          (Sample.with_setMetadata_error "tagging failed" Sample.env))
                       (Sample.event "logs/task-ABC123-flight.bin") []])
          (Sample.world {[ "ABC123" := Sample.completed 5 ]}))).
Proof. vm_compute. reflexivity. Qed.

(** When the file system refuses the deletion, in the body and again in the
    handler, the copy stays: the hypothesis on [unlink_error] is needed. *)
Example temp_copy_left_when_unlink_refused :
  tmp_files (processLogFileUpload
               (Sample.with_unlink_error "EPERM" Sample.env)
               (Sample.event "logs/task-ABC123-flight.bin")
               (Sample.world {[ "ABC123" := Sample.completed 5 ]})).2
    !! "/tmp/task-ABC123-flight.bin" = Some []
  ∧ (processLogFileUpload
       (Sample.with_unlink_error "EPERM" Sample.env)
       (Sample.event "logs/task-ABC123-flight.bin")
       (Sample.world {[ "ABC123" := Sample.completed 5 ]})).1 = Throw "EPERM".
Proof. vm_compute. done. Qed.

(** ** A failure of the tagging step *)

Lemma tmp_files_set_tmp_files f w : tmp_files (set_tmp_files f w) = f (tmp_files w).
Proof. reflexivity. Qed.

Lemma tmp_files_set_file_hashes f w : tmp_files (set_file_hashes f w) = tmp_files w.
Proof. reflexivity. Qed.

(** C5, as the code has it. When the download, the read and the provenance
    write succeed and the tagging call rejects, the invocation aborts: the
    handler deletes the temporary copy when the file system allows it (a
    refused deletion is caught there and the copy stays) and rethrows the
    tagging error. The provenance record stays written; task resolution
    and verification are not run, so no task is changed and no settlement
    call is made. *)
Theorem tagging_failure_aborts (env : Env) (object : ObjectEvent) (w : World)
    (bytes : list Byte.byte) (msg : string) :
  Js.startsWith "logs/" (obj_name object) = true →
  download_error env = None →
  bucket w !! obj_name object = Some bytes →
  read_error env = None →
  add_error env = None →
  setMetadata_error env = Some msg →
  ∃ w', processLogFileUpload env object w = (Throw msg, w')
        ∧ file_hashes w'
          = file_hashes w ++
            [{| fileName := Js.basename (obj_name object);
                filePath := obj_name object;
                contentType := obj_contentType object;
                sizeBytes := obj_size object;
                uploadTimestamp := obj_timeCreated object;
                sha256Hash := sha256_hex env bytes;
                processedTimestamp := timestamp_now env |}]
        ∧ tasks w' = tasks w
        ∧ settlements w' = settlements w
        ∧ object_metadata w' = object_metadata w
        ∧ tmp_files w' !! tempFilePath env object
          = match unlink_error env with
            | None => None
            | Some _ => Some bytes
            end.
Proof.
  intros Hlogs Hd Hb Hr Ha Hs.
  unfold processLogFileUpload, tempFilePath. rewrite Hlogs. cbn [negb]. cbn zeta.
  set (path := Js.join (os_tmpdir env) (Js.basename (obj_name object))).
  unfold try_catch, bind, Storage.download, Fs.readFileSync,
    Firestore.add_file_hash, Storage.setMetadata, Fs.existsSync, Fs.unlinkSync,
    throw, ret.
  rewrite Hd, Hb, Hr, tmp_files_set_tmp_files, lookup_insert_eq, Ha, Hs.
  rewrite !tmp_files_set_file_hashes, !tmp_files_set_tmp_files, !lookup_insert_eq.
  rewrite bool_decide_eq_true_2 by eauto. cbn beta iota.
  rewrite !tmp_files_set_file_hashes, !tmp_files_set_tmp_files, !lookup_insert_eq.
  destruct (unlink_error env); eexists; (split; [reflexivity|]);
    cbn [file_hashes tasks settlements object_metadata tmp_files
           set_tmp_files set_file_hashes];
    repeat (split; [reflexivity|]).
  - apply lookup_insert_eq.
  - apply lookup_delete_eq.
Qed.

Lemma tagging_failure_aborts_witness :
  ∃ w', processLogFileUpload
          (Sample.with_setMetadata_error "tagging failed" Sample.env)
          (Sample.event "logs/task-ABC123-flight.bin")
          (Sample.world {[ "ABC123" := Sample.completed 5 ]})
        = (Throw "tagging failed", w')
        ∧ tasks w' = {[ "ABC123" := Sample.completed 5 ]}
        ∧ settlements w' = []
        ∧ tmp_files w' !! "/tmp/task-ABC123-flight.bin" = None.
Proof.
  destruct (tagging_failure_aborts
              (Sample.with_setMetadata_error "tagging failed" Sample.env)
              (Sample.event "logs/task-ABC123-flight.bin")
              (Sample.world {[ "ABC123" := Sample.completed 5 ]})
              [] "tagging failed"
              eq_refl eq_refl eq_refl eq_refl eq_refl eq_refl)
    as (w' & Hrun & _ & Ht & Hs & _ & Htmp).
  exists w'. split; [exact Hrun|]. split; [exact Ht|]. split; [exact Hs | exact Htmp].
Defined.

(** C5, as stated, fails: with the tagging call the only one that rejects,
    the invocation does not carry on to resolution and verification. On
    this upload for the completed task [ABC123] it throws, the task stays
    unverified and no settlement is made, whereas the same upload with a
    working tagging call verifies the task. *)
Lemma tagging_failure_is_fatal :
  (processLogFileUpload
     (Sample.with_setMetadata_error "tagging failed" Sample.env)
     (Sample.event "logs/task-ABC123-flight.bin")
     (Sample.world {[ "ABC123" := Sample.completed 5 ]})).1
  = Throw "tagging failed"
  ∧ length (file_hashes
              (processLogFileUpload
                 (Sample.with_setMetadata_error "tagging failed" Sample.env)
                 (Sample.event "logs/task-ABC123-flight.bin")
                 (Sample.world {[ "ABC123" := Sample.completed 5 ]})).2) = 1%nat
  ∧ settlements
      (processLogFileUpload
         (Sample.with_setMetadata_error "tagging failed" Sample.env)
         (Sample.event "logs/task-ABC123-flight.bin")
         (Sample.world {[ "ABC123" := Sample.completed 5 ]})).2 = []
  ∧ tasks
      (processLogFileUpload
         (Sample.with_setMetadata_error "tagging failed" Sample.env)
         (Sample.event "logs/task-ABC123-flight.bin")
         (Sample.world {[ "ABC123" := Sample.completed 5 ]})).2
      !! "ABC123" = Some (Sample.completed 5)
  ∧ length (settlements
              (processLogFileUpload Sample.env
                 (Sample.event "logs/task-ABC123-flight.bin")
                 (Sample.world {[ "ABC123" := Sample.completed 5 ]})).2) = 1%nat.
Proof. vm_compute. done. Qed.

(** ** Two orchestrations of one task *)

(** An eligible task, with the store answering: the run settles, writes the
    verification fields and reports success. *)
Lemma verifyTask_eligible env id result hash w t :
  tasks w !! id = Some t →
  status t = "completed" → verificationResult t = None →
  get_error env = None → update_error env = None →
  verifyTask blockchainService env id result hash w
  = (Ok {| success := true;
           message := "Task " +:+ id +:+ " verified successfully";
           transactionId := Some (mockTxId env);
           outcome_verificationResult := Some result |},
     set_tasks (insert id (verification_fields env result hash (mockTxId env) t))
       (set_settlements
          (fun l => l ++ [{| st_taskId := id; st_result := result;
                             st_reportHash := hash; st_tx := mockTxId env |}]) w)).
Proof.
  intros Ht Hs Hv Hg Hu.
  unfold verifyTask, try_catch, bind, ret, throw, Firestore.doc_get,
    Firestore.doc_update, createMockTransaction, DEBUG_MODE.
  cbn -[String.append String.eqb]. rewrite Hg, Ht, Hs, Hv, Hu.
  cbn -[String.append]. rewrite Ht. reflexivity.
Qed.

Lemma step_Started env id result hash w :
  get_error env = None →
  verifyTask_step blockchainService env id result hash Started w
  = (Fetched (tasks w !! id), w).
Proof.
  intros Hg. unfold verifyTask_step, Firestore.doc_get. cbn [db blockchainService
    new_BlockchainService negb]. by rewrite Hg.
Qed.

Lemma step_Fetched_eligible env id result hash w t :
  status t = "completed" → verificationResult t = None →
  verifyTask_step blockchainService env id result hash (Fetched (Some t)) w
  = (Settled (mockTxId env),
     set_settlements
       (fun l => l ++ [{| st_taskId := id; st_result := result;
                          st_reportHash := hash; st_tx := mockTxId env |}]) w).
Proof.
  intros Hs Hv. unfold verifyTask_step. by rewrite Hs, Hv.
Qed.

Lemma step_Settled env id result hash tx w t :
  update_error env = None → tasks w !! id = Some t →
  verifyTask_step blockchainService env id result hash (Settled tx) w
  = (Done {| success := true;
             message := "Task " +:+ id +:+ " verified successfully";
             transactionId := Some tx;
             outcome_verificationResult := Some result |},
     set_tasks (insert id (verification_fields env result hash tx t)) w).
Proof.
  intros Hu Ht. unfold verifyTask_step, Firestore.doc_update.
  cbn [db admin blockchainService new_BlockchainService andb]. by rewrite Hu, Ht.
Qed.

(** X17. When both runs read an eligible task before either writes it,
    both settle and both report success; the second write is applied on
    top of the first, so the task ends up with the later run's fields. *)
Lemma race_interleaved envA envB id resA resB hashA hashB w t :
  tasks w !! id = Some t →
  status t = "completed" → verificationResult t = None →
  get_error envA = None → update_error envA = None →
  get_error envB = None → update_error envB = None →
  let r := race blockchainService envA envB id resA resB hashA hashB
             [true; false; true; false; true; false] w in
  recorded (runA r) = true ∧ recorded (runB r) = true
  ∧ settlements (world r)
    = settlements w ++
      [{| st_taskId := id; st_result := resA; st_reportHash := hashA;
          st_tx := mockTxId envA |};
       {| st_taskId := id; st_result := resB; st_reportHash := hashB;
          st_tx := mockTxId envB |}]
  ∧ tasks (world r) !! id
    = Some (verification_fields envB resB hashB (mockTxId envB)
              (verification_fields envA resA hashA (mockTxId envA) t)).
Proof.
  intros Ht Hs Hv HgA HuA HgB HuB r. subst r.
  unfold race. cbn [fold_left]. unfold race_step. cbn [runA runB world].
  rewrite (step_Started envA) by done. cbn [runA runB world].
  rewrite (step_Started envB) by done. cbn [runA runB world]. rewrite Ht.
  rewrite (step_Fetched_eligible envA) by done. cbn [runA runB world].
  rewrite (step_Fetched_eligible envB) by done. cbn [runA runB world].
  rewrite (step_Settled envA _ _ _ _ _ t) by done. cbn [runA runB world].
  rewrite (step_Settled envB _ _ _ _ _
             (verification_fields envA resA hashA (mockTxId envA) t))
    by (done || apply lookup_insert_eq).
  cbn [runA runB world recorded success].
  split; [done|]. split; [done|]. split.
  - cbn. by rewrite <- app_assoc.
  - cbn. apply lookup_insert_eq.
Qed.

(** Three consecutive turns of one run are that run's [verifyTask]. *)
Lemma race_turns_A svc envA envB id resA resB hashA hashB pB w o w' :
  verifyTask svc envA id resA hashA w = (Ok o, w') →
  fold_left (fun r turnA => race_step svc envA envB id resA resB hashA hashB turnA r)
    [true; true; true] {| runA := Started; runB := pB; world := w |}
  = {| runA := Done o; runB := pB; world := w' |}.
Proof.
  intros Hrun.
  pose proof (verifyTask_steps svc envA id resA hashA w) as Hsteps.
  cbn [fold_left]. unfold race_step. cbn [runA runB world].
  revert Hsteps. cbv zeta.
  destruct (verifyTask_step svc envA id resA hashA Started w) as [p1 w1].
  cbn [fst snd runA runB world].
  destruct (verifyTask_step svc envA id resA hashA p1 w1) as [p2 w2].
  cbn [fst snd runA runB world].
  destruct (verifyTask_step svc envA id resA hashA p2 w2) as [p3 w3].
  cbn [fst snd runA runB world].
  intros (o' & -> & Hv). rewrite Hrun in Hv. by injection Hv as <- <-.
Qed.

Lemma race_turns_B svc envA envB id resA resB hashA hashB pA w o w' :
  verifyTask svc envB id resB hashB w = (Ok o, w') →
  fold_left (fun r turnA => race_step svc envA envB id resA resB hashA hashB turnA r)
    [false; false; false] {| runA := pA; runB := Started; world := w |}
  = {| runA := pA; runB := Done o; world := w' |}.
Proof.
  intros Hrun.
  pose proof (verifyTask_steps svc envB id resB hashB w) as Hsteps.
  cbn [fold_left]. unfold race_step. cbn [runA runB world].
  revert Hsteps. cbv zeta.
  destruct (verifyTask_step svc envB id resB hashB Started w) as [p1 w1].
  cbn [fst snd runA runB world].
  destruct (verifyTask_step svc envB id resB hashB p1 w1) as [p2 w2].
  cbn [fst snd runA runB world].
  destruct (verifyTask_step svc envB id resB hashB p2 w2) as [p3 w3].
  cbn [fst snd runA runB world].
  intros (o' & -> & Hv). rewrite Hrun in Hv. by injection Hv as <- <-.
Qed.

(** C2, as the code has it. The eligibility check and the update are two
    separate steps, and the update is unconditional. When the second
    orchestration reads the task only after the first has written it,
    exactly one of them reaches [Recorded]: the first settles once and
    writes the terminal fields, the second is rejected with no transaction
    id, makes no settlement call and leaves the task as the first wrote
    it. *)
Theorem verifyTask_one_after_the_other (envA envB : Env) (id : string)
    (resA resB : bool) (hashA hashB : string) (w : World) (t : Task) :
  tasks w !! id = Some t →
  status t = "completed" → verificationResult t = None →
  get_error envA = None → update_error envA = None →
  let r := race blockchainService envA envB id resA resB hashA hashB
             [true; true; true; false; false; false] w in
  recorded (runA r) = true
  ∧ (∃ o, runB r = Done o ∧ success o = false ∧ transactionId o = None)
  ∧ settlements (world r)
    = settlements w ++ [{| st_taskId := id; st_result := resA;
                           st_reportHash := hashA; st_tx := mockTxId envA |}]
  ∧ tasks (world r)
    = <[id := verification_fields envA resA hashA (mockTxId envA) t]> (tasks w).
Proof.
  intros Ht Hs Hv Hg Hu r. subst r. unfold race.
  change [true; true; true; false; false; false]
    with ([true; true; true] ++ [false; false; false]).
  rewrite fold_left_app.
  rewrite (race_turns_A _ _ _ _ _ _ _ _ _ _ _ _
             (verifyTask_eligible envA id resA hashA w t Ht Hs Hv Hg Hu)).
  set (w1 := set_tasks _ (set_settlements _ w)).
  assert (Ht1 : tasks w1 !! id
                = Some (verification_fields envA resA hashA (mockTxId envA) t))
    by apply lookup_insert_eq.
  destruct (verifyTask_ineligible blockchainService envB id resB hashB w1 _ Ht1)
    as (oB & HrunB & HfB & HtxB); [right; eauto|].
  rewrite (race_turns_B _ _ _ _ _ _ _ _ _ _ _ _ HrunB).
  cbn [runA runB world recorded success]. split; [done|].
  split; [by exists oB|]. done.
Qed.

Lemma verifyTask_one_after_the_other_witness :
  recorded (runA (race blockchainService Sample.env
                    (Sample.with_random "0.zzzzzzzz" Sample.env) "T1"
                    true true "aa" "bb"
                    [true; true; true; false; false; false]
                    (Sample.world {[ "T1" := Sample.completed 5 ]}))) = true
  ∧ ∃ o, runB (race blockchainService Sample.env
                 (Sample.with_random "0.zzzzzzzz" Sample.env) "T1"
                 true true "aa" "bb"
                 [true; true; true; false; false; false]
                 (Sample.world {[ "T1" := Sample.completed 5 ]})) = Done o
         ∧ success o = false ∧ transactionId o = None.
Proof.
  destruct (verifyTask_one_after_the_other Sample.env
              (Sample.with_random "0.zzzzzzzz" Sample.env) "T1"
              true true "aa" "bb"
              (Sample.world {[ "T1" := Sample.completed 5 ]})
              (Sample.completed 5))
    as (HA & HB & _); [reflexivity..|].
  split; [exact HA | exact HB].
Defined.

(** C2, as stated, fails: when both orchestrations read the task before
    either writes it, both pass the gate, both settle and both reach
    [Recorded]; the task ends up holding the transaction of the later
    write, and two settlement calls have been made. *)
Lemma race_both_recorded :
  recorded (runA (race blockchainService Sample.env
                    (Sample.with_random "0.zzzzzzzz" Sample.env) "T1"
                    true true "aa" "bb"
                    [true; false; true; false; true; false]
                    (Sample.world {[ "T1" := Sample.completed 5 ]}))) = true
  ∧ recorded (runB (race blockchainService Sample.env
                      (Sample.with_random "0.zzzzzzzz" Sample.env) "T1"
                      true true "aa" "bb"
                      [true; false; true; false; true; false]
                      (Sample.world {[ "T1" := Sample.completed 5 ]}))) = true
  ∧ length (settlements
              (world (race blockchainService Sample.env
                        (Sample.with_random "0.zzzzzzzz" Sample.env) "T1"
                        true true "aa" "bb"
                        [true; false; true; false; true; false]
                        (Sample.world {[ "T1" := Sample.completed 5 ]})))) = 2%nat
  ∧ (verificationTx <$>
     tasks (world (race blockchainService Sample.env
                     (Sample.with_random "0.zzzzzzzz" Sample.env) "T1"
                     true true "aa" "bb"
                     [true; false; true; false; true; false]
                     (Sample.world {[ "T1" := Sample.completed 5 ]}))) !! "T1")
    = Some (Some (mockTxId (Sample.with_random "0.zzzzzzzz" Sample.env))).
Proof. vm_compute. done. Qed.

(** * Further properties of the sources *)

(** ** The outcomes of [verifyTask] *)

(** Every run of [verifyTask] ends in one of four ways: rejected at a gate
    with the state untouched; settled but with the update rejected;
    settled and recorded; or (for a service object with a store but no SDK
    handle) settled without any update. *)
Lemma verifyTask_cases svc env id result hash w :
  (∃ msg, verifyTask svc env id result hash w = (Ok (rejected msg), w)
          ∧ ¬ (db svc = true ∧ get_error env = None
               ∧ ∃ t, tasks w !! id = Some t ∧ eligible t))
  ∨ (∃ t, db svc = true ∧ get_error env = None
          ∧ tasks w !! id = Some t ∧ eligible t
          ∧ ((admin svc = true
              ∧ ∃ e, update_error env = Some e
                     ∧ verifyTask svc env id result hash w
                       = (Ok (rejected ("Error verifying task: " +:+ e)),
                          set_settlements
                            (fun l => l ++ [settlement_of env id result hash]) w))
             ∨ (admin svc = true ∧ update_error env = None
                ∧ verifyTask svc env id result hash w
                  = (Ok (recorded_outcome env id result),
                     set_tasks
                       (insert id (verification_fields env result hash (mockTxId env) t))
                       (set_settlements
                          (fun l => l ++ [settlement_of env id result hash]) w)))
             ∨ (admin svc = false
                ∧ verifyTask svc env id result hash w
                  = (Ok (recorded_outcome env id result),
                     set_settlements
                       (fun l => l ++ [settlement_of env id result hash]) w)))).
Proof.
  destruct svc as [a d].
  unfold verifyTask, try_catch, bind, ret, throw, Firestore.doc_get,
    Firestore.doc_update, createMockTransaction, DEBUG_MODE, eligible.
  cbn -[String.append String.eqb].
  destruct d; cbn -[String.append String.eqb];
    [|left; eexists; split; [reflexivity|]; by intros [? _]].
  destruct (get_error env) as [e|] eqn:Hg; cbn -[String.append String.eqb];
    [left; eexists; split; [reflexivity|]; by intros (_ & ? & _)|].
  destruct (tasks w !! id) as [t|] eqn:Ht; cbn -[String.append String.eqb];
    [|left; eexists; split; [reflexivity|]; by intros (_ & _ & ? & ? & _)].
  destruct (String.eqb_spec (status t) "completed") as [Hs|Hs];
    cbn -[String.append String.eqb];
    [|left; eexists; split; [reflexivity|];
      intros (_ & _ & t' & [= <-] & Hs' & _); by apply Hs].
  destruct (verificationResult t) as [b|] eqn:Hv; cbn -[String.append String.eqb];
    [left; eexists; split; [reflexivity|];
     intros (_ & _ & t' & [= <-] & _ & Hv'); congruence|].
  right. exists t. do 4 (split; [done|]).
  destruct a; cbn -[String.append String.eqb]; [|by right; right].
  destruct (update_error env) as [e|] eqn:Hu; cbn -[String.append String.eqb].
  - left. split; [done|]. by exists e.
  - right. left. rewrite Ht. done.
Qed.





(** X3. When the update of an eligible task is rejected, the settlement has
    already been made: the run reports failure with no transaction id and
    leaves the task completed and unverified, but the trace holds the call.
    A later run for the same task, with the store answering, settles a
    second time before it records. *)
Theorem verifyTask_update_rejected (env env2 : Env) (id : string)
    (result result2 : bool) (hash hash2 : string) (w : World) (t : Task) (e : string) :
  tasks w !! id = Some t → eligible t →
  get_error env = None → update_error env = Some e →
  get_error env2 = None → update_error env2 = None →
  ∃ w1 w2,
    verifyTask blockchainService env id result hash w
    = (Ok (rejected ("Error verifying task: " +:+ e)), w1)
    ∧ tasks w1 = tasks w
    ∧ settlements w1 = settlements w ++ [settlement_of env id result hash]
    ∧ verifyTask blockchainService env2 id result2 hash2 w1
      = (Ok (recorded_outcome env2 id result2), w2)
    ∧ settlements w2
      = settlements w ++ [settlement_of env id result hash;
                          settlement_of env2 id result2 hash2].
Proof.
  intros Ht He Hg Hu Hg2 Hu2.
  destruct (verifyTask_cases blockchainService env id result hash w)
    as [(msg & _ & Hno)
       |(t' & _ & _ & Ht' & _ & [(_ & e' & Hu' & Hrun)|[(_ & Hu' & _)|(Ha & _)]])];
    [destruct Hno; eauto 6 | | congruence | discriminate Ha].
  assert (e' = e) as -> by congruence.
  set (w1 := set_settlements _ w) in Hrun.
  destruct (verifyTask_cases blockchainService env2 id result2 hash2 w1)
    as [(msg & _ & Hno)
       |(t2 & _ & _ & Ht2 & _ & [(_ & e2 & Hu2' & _)|[(_ & _ & Hrun2)|(Ha & _)]])];
    [destruct Hno; eauto 6 | congruence | | discriminate Ha].
  exists w1. eexists. split; [exact Hrun|]. split; [done|]. split; [done|].
  split; [exact Hrun2|]. cbn. by rewrite <- app_assoc.
Qed.

Lemma verifyTask_update_rejected_witness :
  ∃ w1 w2,
    verifyTask blockchainService (Sample.with_update_error "ABORTED" Sample.env)
      "T1" true "aa" (Sample.world {[ "T1" := Sample.completed 5 ]})
    = (Ok (rejected "Error verifying task: ABORTED"), w1)
    ∧ tasks w1 = {[ "T1" := Sample.completed 5 ]}
    ∧ verifyTask blockchainService Sample.env "T1" true "aa" w1
      = (Ok (recorded_outcome Sample.env "T1" true), w2)
    ∧ length (settlements w2) = 2%nat.
Proof.
  destruct (verifyTask_update_rejected
              (Sample.with_update_error "ABORTED" Sample.env) Sample.env
              "T1" true true "aa" "aa"
              (Sample.world {[ "T1" := Sample.completed 5 ]})
              (Sample.completed 5) "ABORTED")
    as (w1 & w2 & H1 & Ht & _ & H2 & Hs); try reflexivity; [by split|].
  exists w1, w2. split; [exact H1|]. split; [exact Ht|]. split; [exact H2|].
  by rewrite Hs.
Defined.

(** ** Resolution followed by verification *)

Lemma extractTaskId_unchanged svc env filePath md w :
  ∃ r, extractTaskId svc env filePath md w = (Ok r, w).
Proof.
  unfold extractTaskId, try_catch, bind, ret, Firestore.query_recent_completed.
  destruct (Js.truthy (taskId md)); [eauto|].
  destruct (Js.task_re filePath); [eauto|].
  destruct (negb (db svc)); [eauto|].
  destruct (query_error env); [eauto|].
  destruct (Firestore.recent_completed (tasks w)); eauto.
Qed.

Lemma extractTaskId_metadata svc env filePath md w t :
  Spec.metadata_id md t → extractTaskId svc env filePath md w = (Ok (Some t), w).
Proof.
  intros Ht. unfold extractTaskId, try_catch.
  rewrite (truthy_metadata_id _ _ Ht). destruct Ht as [-> _]. done.
Qed.

Lemma extractTaskId_path svc env filePath md w id :
  Js.truthy (taskId md) = false → Js.task_re filePath = Some id →
  extractTaskId svc env filePath md w = (Ok (Some id), w).
Proof. intros Hmd Hre. unfold extractTaskId, try_catch. by rewrite Hmd, Hre. Qed.

Lemma extractTaskId_fallback env filePath md w d l :
  Js.truthy (taskId md) = false → Js.task_re filePath = None →
  query_error env = None → Firestore.recent_completed (tasks w) = d :: l →
  extractTaskId blockchainService env filePath md w = (Ok (Some d.1.1), w).
Proof.
  intros Hmd Hre Hq Hd.
  unfold extractTaskId, try_catch, bind, ret, Firestore.query_recent_completed.
  rewrite Hmd, Hre, Hq. cbn. by rewrite Hd.
Qed.

(** Once the resolver has produced an id, [sendToExternalSystem] is
    [verifyTask] on that id with the result [true] and the file hash. *)
Lemma send_resolved env hash filePath md w id :
  extractTaskId blockchainService env filePath md w = (Ok (Some id), w) →
  id ≠ "" →
  sendToExternalSystem env hash filePath md w
  = verifyTask blockchainService env id true hash w.
Proof.
  intros Hx Hne. unfold sendToExternalSystem, try_catch at 1, bind at 1.
  rewrite Hx. cbn [Js.truthy]. apply String.eqb_neq in Hne. rewrite Hne.
  cbn [negb]. unfold default, from_option, Datatypes.id, bind, ret.
  destruct (verifyTask_total blockchainService env id true hash w) as (o & w' & ->).
  reflexivity.
Qed.

Lemma send_unresolved env hash filePath md w r :
  extractTaskId blockchainService env filePath md w = (Ok r, w) →
  Js.truthy r = false →
  sendToExternalSystem env hash filePath md w
  = (Ok (rejected "Could not determine task ID for verification"), w).
Proof.
  intros Hx Hr. unfold sendToExternalSystem, try_catch, bind, ret.
  by rewrite Hx, Hr.
Qed.

Lemma verifyTask_outside svc env id result hash w :
  same_outside_tasks w (verifyTask svc env id result hash w).2
  ∧ dom (tasks (verifyTask svc env id result hash w).2) = dom (tasks w).
Proof.
  destruct (verifyTask_cases svc env id result hash w)
    as [(msg & Hrun & _)
       |(t & _ & _ & Ht & _ & [(_ & e & _ & Hrun)|[(_ & _ & Hrun)|(_ & Hrun)]])];
    rewrite Hrun; cbn [snd]; unfold same_outside_tasks; try done.
  split; [done|]. cbn. apply dom_insert_lookup_L. rewrite Ht. eauto.
Qed.

(** [sendToExternalSystem] never throws, and it writes nothing but the
    tasks and the trace of settlement calls. *)
Lemma send_frame env hash filePath md w :
  ∃ o w', sendToExternalSystem env hash filePath md w = (Ok o, w')
          ∧ same_outside_tasks w w' ∧ dom (tasks w') = dom (tasks w).
Proof.
  destruct (extractTaskId_unchanged blockchainService env filePath md w) as [r Hx].
  destruct (Js.truthy r) eqn:Hr.
  - destruct r as [id|]; [|discriminate Hr].
    assert (Hne : id ≠ "").
    { intros ->. discriminate Hr. }
    rewrite (send_resolved _ _ _ _ _ _ Hx Hne).
    destruct (verifyTask_total blockchainService env id true hash w) as (o & w' & Hv).
    pose proof (verifyTask_outside blockchainService env id true hash w) as (Hf & Hd).
    rewrite Hv in *. eauto.
  - rewrite (send_unresolved _ _ _ _ _ _ Hx Hr). do 2 eexists.
    split; [reflexivity|]. by repeat split.
Qed.

Lemma task_re_nonempty filePath id : Js.task_re filePath = Some id → id ≠ "".
Proof.
  intros (pre & rest & _ & Hne & _)%task_re_sound. exact Hne.
Qed.

(** X4. A task id given in the metadata is used without checking that the
    task exists and without falling back: when the id names a document of
    the collection (one path component, see [Firestore.valid_doc_id]) and
    no such task is stored, the outcome is the failure [Task not found],
    whatever the path says and whatever completed tasks there are, and
    nothing is changed or settled. *)
Theorem metadata_id_of_missing_task (env : Env) (hash filePath : string)
    (md : Metadata) (w : World) (t : string) :
  Spec.metadata_id md t →
  Firestore.valid_doc_id t = true →
  tasks w !! t = None →
  get_error env = None →
  sendToExternalSystem env hash filePath md w
  = (Ok (rejected ("Error verifying task: Task not found: " +:+ t)), w).
Proof.
  intros Hmd _ Ht Hg.
  rewrite (send_resolved _ _ _ _ _ t (extractTaskId_metadata _ _ _ _ _ _ Hmd))
    by apply Hmd.
  unfold verifyTask, try_catch, bind, throw, ret, Firestore.doc_get.
  cbn -[String.append]. by rewrite Hg, Ht.
Qed.

Lemma metadata_id_of_missing_task_witness :
  sendToExternalSystem Sample.env "aa" "logs/task-T9-flight.bin"
    (Sample.metadata (Some "T1")) (Sample.world {[ "T9" := Sample.completed 9 ]})
  = (Ok (rejected "Error verifying task: Task not found: T1"),
     Sample.world {[ "T9" := Sample.completed 9 ]}).
Proof.
  apply (metadata_id_of_missing_task Sample.env "aa" "logs/task-T9-flight.bin"
           (Sample.metadata (Some "T1"))
           (Sample.world {[ "T9" := Sample.completed 9 ]}) "T1");
    [by split | reflexivity | reflexivity | reflexivity].
Defined.

Example valid_doc_id_ex :
  Firestore.valid_doc_id "T1" = true ∧ Firestore.valid_doc_id "a/b" = false
  ∧ Firestore.valid_doc_id "/T1" = false ∧ Firestore.valid_doc_id ".." = false
  ∧ Firestore.valid_doc_id "__name__" = false ∧ Firestore.valid_doc_id "" = false
  ∧ Firestore.valid_doc_id "task_1-a" = true.
Proof. repeat split; reflexivity. Qed.

(** X5. When neither the metadata nor the path gives a task id, and the
    fallback query either raises or finds no completed task,
    [sendToExternalSystem] answers with the failure
    [Could not determine task ID for verification] and changes nothing. *)
Theorem unresolved_task_is_reported (env : Env) (hash filePath : string)
    (md : Metadata) (w : World) :
  Js.truthy (taskId md) = false →
  Js.task_re filePath = None →
  is_Some (query_error env) ∨ (∀ id c, ¬ Spec.completed_at (tasks w) id c) →
  sendToExternalSystem env hash filePath md w
  = (Ok (rejected "Could not determine task ID for verification"), w).
Proof.
  intros Hmd Hre Hq. apply (send_unresolved _ _ _ _ _ None); [|done].
  unfold extractTaskId, try_catch, bind, ret, Firestore.query_recent_completed.
  rewrite Hmd, Hre. cbn.
  destruct (query_error env) as [e|]; [done|].
  destruct Hq as [[e He]|Hno]; [discriminate He|].
  pose proof (recent_completed_spec (tasks w)) as Hspec.
  destruct (Firestore.recent_completed (tasks w)) as [|d l]; [done|].
  destruct Hspec as (c & Hc & _). by destruct (Hno d.1.1 c).
Qed.

Lemma unresolved_task_is_reported_witness :
  sendToExternalSystem (Sample.with_query_error "UNAVAILABLE" Sample.env) "aa"
    "logs/flight.bin" (Sample.metadata None)
    (Sample.world {[ "T9" := Sample.completed 9 ]})
  = (Ok (rejected "Could not determine task ID for verification"),
     Sample.world {[ "T9" := Sample.completed 9 ]}).
Proof.
  apply (unresolved_task_is_reported
           (Sample.with_query_error "UNAVAILABLE" Sample.env) "aa"
           "logs/flight.bin" (Sample.metadata None)
           (Sample.world {[ "T9" := Sample.completed 9 ]}));
    [reflexivity | reflexivity | left; by eexists].
Defined.

(** ** The upload handler, step by step *)

(** With the storage side working, the handler returns the digest and ends
    in the state [sendToExternalSystem] left, minus the local copy. *)
Lemma handler_storage_ok env object w bytes :
  storage_ok env object bytes w →
  ∃ o w3,
    sendToExternalSystem env (sha256_hex env bytes) (obj_name object)
      (upload_metadata object) (after_storage env object bytes w) = (Ok o, w3)
    ∧ same_outside_tasks (after_storage env object bytes w) w3
    ∧ dom (tasks w3) = dom (tasks w)
    ∧ processLogFileUpload env object w
      = (Ok (Some (sha256_hex env bytes)),
         set_tmp_files (delete (tempFilePath env object)) w3).
Proof.
  intros (Hlogs & Hd & Hb & Hr & Ha & Hs & Hu).
  destruct (send_frame env (sha256_hex env bytes) (obj_name object)
              (upload_metadata object) (after_storage env object bytes w))
    as (o & w3 & Hsend & Hf & Hdom).
  exists o, w3. split; [exact Hsend|]. split; [exact Hf|]. split; [exact Hdom|].
  unfold processLogFileUpload. rewrite Hlogs. cbn [negb]. cbn zeta.
  change (Js.join (os_tmpdir env) (Js.basename (obj_name object)))
    with (tempFilePath env object).
  set (path := tempFilePath env object) in *.
  unfold try_catch at 1.
  unfold bind, Storage.download, Fs.readFileSync, Firestore.add_file_hash,
    Storage.setMetadata, ret.
  rewrite Hd, Hb, Hr, tmp_files_set_tmp_files, lookup_insert_eq, Ha, Hs.
  change (sendToExternalSystem env (sha256_hex env bytes) (obj_name object) _ _)
    with (sendToExternalSystem env (sha256_hex env bytes) (obj_name object)
            (upload_metadata object) (after_storage env object bytes w)).
  rewrite Hsend. unfold Fs.unlinkSync. rewrite Hu.
  destruct Hf as (_ & _ & _ & Htmp). rewrite Htmp.
  unfold after_storage. fold path.
  change (tmp_files (set_object_metadata ?f ?x)) with (tmp_files x).
  rewrite tmp_files_set_file_hashes, tmp_files_set_tmp_files, lookup_insert_eq.
  reflexivity.
Qed.

(** X6. With the storage side working, the handler returns the digest of
    the uploaded bytes whatever happens to the verification (a failing
    query, read or update of the task store included). It appends exactly
    one provenance record, carrying that digest, tags the object with the
    same digest, leaves the bucket alone, removes the local copy, and
    creates or deletes no task. *)
Theorem upload_recorded_and_tagged (env : Env) (object : ObjectEvent)
    (w : World) (bytes : list Byte.byte) :
  storage_ok env object bytes w →
  ∃ w', processLogFileUpload env object w = (Ok (Some (sha256_hex env bytes)), w')
        ∧ file_hashes w' = file_hashes w ++ [provenance_record env object bytes]
        ∧ object_metadata w'
          = <[obj_name object := sha256_hex env bytes]> (object_metadata w)
        ∧ bucket w' = bucket w
        ∧ tmp_files w' = delete (tempFilePath env object) (tmp_files w)
        ∧ dom (tasks w') = dom (tasks w).
Proof.
  intros Hok.
  destruct (handler_storage_ok env object w bytes Hok)
    as (o & w3 & _ & (Hfh & Hb & Hom & Htmp) & Hdom & Hrun).
  eexists. split; [exact Hrun|]. cbn.
  rewrite Hfh, Hom, Hb, Htmp. repeat split; try done.
  unfold after_storage. cbn. apply delete_insert_eq.
Qed.

Lemma upload_recorded_and_tagged_witness :
  ∃ w', processLogFileUpload (Sample.with_query_error "UNAVAILABLE" Sample.env)
          (Sample.event "logs/flight.bin")
          (Sample.world {[ "T9" := Sample.completed 9 ]})
        = (Ok (Some "e3b0c44298fc1c149afbf4c8996fb92427ae41e4649b934ca495991b7852b855"),
           w')
        ∧ object_metadata w'
          = {[ "logs/flight.bin" :=
                 "e3b0c44298fc1c149afbf4c8996fb92427ae41e4649b934ca495991b7852b855" ]}
        ∧ tmp_files w' = ∅.
Proof.
  destruct (upload_recorded_and_tagged
              (Sample.with_query_error "UNAVAILABLE" Sample.env)
              (Sample.event "logs/flight.bin")
              (Sample.world {[ "T9" := Sample.completed 9 ]}) [])
    as (w' & Hrun & _ & Hom & _ & Htmp & _).
  - repeat split; reflexivity.
  - exists w'. split; [exact Hrun|]. split; [exact Hom|].
    rewrite Htmp. apply delete_empty.
Defined.

(** The handler on an upload whose task is known and eligible: the exact
    state it ends in. *)
Lemma handler_verifies env object w bytes id t :
  storage_ok env object bytes w →
  get_error env = None → update_error env = None →
  extractTaskId blockchainService env (obj_name object) (upload_metadata object)
    (after_storage env object bytes w)
  = (Ok (Some id), after_storage env object bytes w) →
  id ≠ "" → tasks w !! id = Some t → eligible t →
  processLogFileUpload env object w
  = (Ok (Some (sha256_hex env bytes)),
     set_tmp_files (delete (tempFilePath env object))
       (set_tasks
          (insert id (verification_fields env true (sha256_hex env bytes)
                        (mockTxId env) t))
          (set_settlements
             (fun l => l ++ [settlement_of env id true (sha256_hex env bytes)])
             (after_storage env object bytes w)))).
Proof.
  intros Hok Hg Hu Hx Hne Ht [Hs Hv].
  destruct (handler_storage_ok env object w bytes Hok) as (o & w3 & Hsend & _ & _ & Hrun).
  rewrite (send_resolved _ _ _ _ _ id Hx Hne) in Hsend.
  rewrite (verifyTask_eligible env id true (sha256_hex env bytes)
             (after_storage env object bytes w) t Ht Hs Hv Hg Hu) in Hsend.
  injection Hsend as _ <-. exact Hrun.
Qed.

(** X7. An upload whose name carries [task-<id>] verifies that task: with
    the storage side and the task store working and the task completed and
    unverified, the handler returns the digest, makes one settlement call
    for [id] with that digest, and writes status [verified], result [true],
    the digest as report hash and the transaction id into the task,
    leaving every other task as it was. *)
Theorem upload_verifies_task_in_path (env : Env) (object : ObjectEvent)
    (w : World) (bytes : list Byte.byte) (id : string) (t : Task) :
  storage_ok env object bytes w →
  get_error env = None → update_error env = None →
  Js.task_re (obj_name object) = Some id →
  tasks w !! id = Some t → eligible t →
  ∃ w', processLogFileUpload env object w = (Ok (Some (sha256_hex env bytes)), w')
        ∧ tasks w'
          = <[id := verification_fields env true (sha256_hex env bytes)
                      (mockTxId env) t]> (tasks w)
        ∧ settlements w'
          = settlements w ++ [settlement_of env id true (sha256_hex env bytes)].
Proof.
  intros Hok Hg Hu Hre Ht He.
  eexists. split.
  - apply (handler_verifies env object w bytes id t); try done.
    + by apply extractTaskId_path.
    + by apply (task_re_nonempty (obj_name object)).
  - split; reflexivity.
Qed.

Lemma upload_verifies_task_in_path_witness :
  ∃ w', processLogFileUpload Sample.env (Sample.event "logs/task-ABC123-flight.bin")
          (Sample.world {[ "ABC123" := Sample.completed 5; "T9" := Sample.completed 9 ]})
        = (Ok (Some (sha256_hex Sample.env [])), w')
        ∧ tasks w' !! "T9" = Some (Sample.completed 9)
        ∧ (status <$> tasks w' !! "ABC123") = Some "verified".
Proof.
  destruct (upload_verifies_task_in_path Sample.env
              (Sample.event "logs/task-ABC123-flight.bin")
              (Sample.world {[ "ABC123" := Sample.completed 5;
                               "T9" := Sample.completed 9 ]})
              [] "ABC123" (Sample.completed 5))
    as (w' & Hrun & Ht & _); try reflexivity.
  - repeat split; reflexivity.
  - by split.
  - exists w'. split; [exact Hrun|]. rewrite Ht. split; reflexivity.
Defined.

(** X8. An upload whose name carries no task token falls back on the
    query: with the store working, at least one completed task, and every
    completed task still unverified, the handler verifies a most recently
    completed task, whichever upload it belongs to. *)
Theorem upload_without_token_verifies_latest (env : Env) (object : ObjectEvent)
    (w : World) (bytes : list Byte.byte) :
  storage_ok env object bytes w →
  query_error env = None → get_error env = None → update_error env = None →
  Js.task_re (obj_name object) = None →
  (∃ id c, Spec.completed_at (tasks w) id c) →
  (∀ id t, tasks w !! id = Some t → status t = "completed" →
           verificationResult t = None) →
  tasks w !! "" = None →
  ∃ id t w',
    Spec.most_recent_completed (tasks w) id
    ∧ tasks w !! id = Some t
    ∧ processLogFileUpload env object w = (Ok (Some (sha256_hex env bytes)), w')
    ∧ tasks w'
      = <[id := verification_fields env true (sha256_hex env bytes)
                  (mockTxId env) t]> (tasks w)
    ∧ settlements w'
      = settlements w ++ [settlement_of env id true (sha256_hex env bytes)].
Proof.
  intros Hok Hq Hg Hu Hre (id0 & c0 & Hex) Hunv Hempty.
  pose proof (recent_completed_spec (tasks w)) as Hspec.
  destruct (Firestore.recent_completed (tasks w)) as [|d l] eqn:Hd;
    [by destruct (Hspec id0 c0)|].
  destruct Hspec as (c & (t & Ht & Hs & Hc) & Hmax).
  exists d.1.1, t. eexists. split; [by exists c; split; [exists t|]|].
  split; [exact Ht|]. split.
  - apply (handler_verifies env object w bytes d.1.1 t); try done.
    + by apply (extractTaskId_fallback env _ _ _ d l).
    + intros Heq. rewrite Heq in Ht. congruence.
    + split; [done|]. by apply (Hunv d.1.1).
  - split; reflexivity.
Qed.

Lemma upload_without_token_verifies_latest_witness :
  ∃ id t w',
    Spec.most_recent_completed
      {[ "T8" := Sample.completed 8; "T9" := Sample.completed 9 ]} id
    ∧ tasks (Sample.world {[ "T8" := Sample.completed 8; "T9" := Sample.completed 9 ]})
        !! id = Some t
    ∧ processLogFileUpload Sample.env (Sample.event "logs/flight.bin")
        (Sample.world {[ "T8" := Sample.completed 8; "T9" := Sample.completed 9 ]})
      = (Ok (Some (sha256_hex Sample.env [])), w').
Proof.
  destruct (upload_without_token_verifies_latest Sample.env
              (Sample.event "logs/flight.bin")
              (Sample.world {[ "T8" := Sample.completed 8; "T9" := Sample.completed 9 ]})
              [])
    as (id & t & w' & Hm & Ht & Hrun & _); try reflexivity.
  - repeat split; reflexivity.
  - exists "T8", 8%Z, (Sample.completed 8). by vm_compute.
  - intros id t Ht _. cbn in Ht.
    apply lookup_insert_Some in Ht as [[_ <-]|[_ Ht]]; [done|].
    apply lookup_singleton_Some in Ht as [_ <-]. done.
  - by exists id, t, w'.
Defined.

Lemma extractTaskId_upload_path env object w id :
  Js.task_re (obj_name object) = Some id →
  extractTaskId blockchainService env (obj_name object) (upload_metadata object) w
  = (Ok (Some id), w).
Proof. intros Hre. by apply extractTaskId_path. Qed.

(** X9. Delivering the same upload event a second time settles nothing
    again: the second invocation returns the digest, leaves the task as the
    first invocation wrote it and makes no settlement call. It does append
    a second provenance record for the same file. *)
Theorem redelivery_settles_once (env env2 : Env) (object : ObjectEvent)
    (w : World) (bytes : list Byte.byte) (id : string) (t : Task) :
  storage_ok env object bytes w →
  storage_ok env2 object bytes w →
  get_error env = None → update_error env = None →
  Js.task_re (obj_name object) = Some id →
  tasks w !! id = Some t → eligible t →
  ∃ w1 w2,
    processLogFileUpload env object w = (Ok (Some (sha256_hex env bytes)), w1)
    ∧ processLogFileUpload env2 object w1 = (Ok (Some (sha256_hex env2 bytes)), w2)
    ∧ tasks w2 = tasks w1
    ∧ settlements w2 = settlements w1
    ∧ settlements w1
      = settlements w ++ [settlement_of env id true (sha256_hex env bytes)]
    ∧ file_hashes w2
      = file_hashes w ++ [provenance_record env object bytes;
                          provenance_record env2 object bytes].
Proof.
  intros Hok Hok2 Hg Hu Hre Ht He.
  pose proof (task_re_nonempty _ _ Hre) as Hne.
  pose proof (handler_verifies env object w bytes id t Hok Hg Hu
                (extractTaskId_upload_path _ _ _ _ Hre) Hne Ht He) as Hrun1.
  set (w1 := set_tmp_files _ _) in Hrun1.
  assert (Hok1 : storage_ok env2 object bytes w1).
  { destruct Hok2 as (? & ? & ? & ? & ? & ? & ?). by repeat split. }
  destruct (handler_storage_ok env2 object w1 bytes Hok1)
    as (o & w3 & Hsend & _ & _ & Hrun2).
  rewrite (send_resolved _ _ _ _ _ id
             (extractTaskId_upload_path _ _ _ _ Hre) Hne) in Hsend.
  destruct (verifyTask_ineligible blockchainService env2 id true
              (sha256_hex env2 bytes) (after_storage env2 object bytes w1)
              (verification_fields env true (sha256_hex env bytes) (mockTxId env) t))
    as (o' & Hv & _); [apply lookup_insert_eq | right; eauto |].
  rewrite Hv in Hsend. injection Hsend as _ <-.
  exists w1. eexists. split; [exact Hrun1|]. split; [exact Hrun2|].
  repeat split. cbn. by rewrite <- app_assoc.
Qed.

Lemma redelivery_settles_once_witness :
  ∃ w1 w2,
    processLogFileUpload Sample.env (Sample.event "logs/task-ABC123-flight.bin")
      (Sample.world {[ "ABC123" := Sample.completed 5 ]})
    = (Ok (Some (sha256_hex Sample.env [])), w1)
    ∧ processLogFileUpload (Sample.with_random "0.zzzzzzzz" Sample.env)
        (Sample.event "logs/task-ABC123-flight.bin") w1
      = (Ok (Some (sha256_hex Sample.env [])), w2)
    ∧ length (settlements w2) = 1%nat
    ∧ length (file_hashes w2) = 2%nat.
Proof.
  destruct (redelivery_settles_once Sample.env
              (Sample.with_random "0.zzzzzzzz" Sample.env)
              (Sample.event "logs/task-ABC123-flight.bin")
              (Sample.world {[ "ABC123" := Sample.completed 5 ]})
              [] "ABC123" (Sample.completed 5))
    as (w1 & w2 & H1 & H2 & _ & Hs2 & Hs1 & Hf); try reflexivity.
  - repeat split; reflexivity.
  - repeat split; reflexivity.
  - by split.
  - exists w1, w2. split; [exact H1|]. split; [exact H2|].
    rewrite Hs2, Hs1, Hf. split; reflexivity.
Defined.

(** X10. When the invocation fails before or at the provenance write (the
    download is rejected, the object is missing, the local copy cannot be
    read, or the insert is rejected), the handler rethrows that error and
    nothing has been recorded: no provenance record, no tag on the object,
    no task change and no settlement call. *)
Theorem failure_before_record_persists_nothing (env : Env) (object : ObjectEvent)
    (w : World) (e : string) :
  Js.startsWith "logs/" (obj_name object) = true →
  download_error env = Some e
  ∨ (download_error env = None ∧ bucket w !! obj_name object = None
     ∧ e = "No such object: " +:+ obj_name object)
  ∨ (download_error env = None ∧ is_Some (bucket w !! obj_name object)
     ∧ read_error env = Some e)
  ∨ (download_error env = None ∧ is_Some (bucket w !! obj_name object)
     ∧ read_error env = None ∧ add_error env = Some e) →
  (processLogFileUpload env object w).1 = Throw e
  ∧ file_hashes (processLogFileUpload env object w).2 = file_hashes w
  ∧ object_metadata (processLogFileUpload env object w).2 = object_metadata w
  ∧ tasks (processLogFileUpload env object w).2 = tasks w
  ∧ settlements (processLogFileUpload env object w).2 = settlements w.
Proof.
  intros Hlogs Hfail.
  unfold processLogFileUpload. rewrite Hlogs. cbn [negb]. cbn zeta.
  set (path := Js.join (os_tmpdir env) (Js.basename (obj_name object))).
  unfold try_catch, bind, Storage.download, Fs.readFileSync,
    Firestore.add_file_hash, Fs.existsSync, Fs.unlinkSync, throw, ret.
  destruct Hfail as [Hd|[(Hd & Hb & ->)|[(Hd & [bytes Hb] & Hr)|(Hd & [bytes Hb] & Hr & Ha)]]];
    rewrite Hd; try rewrite Hb; try rewrite Hr;
    try rewrite tmp_files_set_tmp_files, lookup_insert_eq; try rewrite Ha;
    repeat (case_bool_decide || case_match); simplify_eq; done.
Qed.

Lemma failure_before_record_persists_nothing_witness :
  (processLogFileUpload (Sample.with_add_error "DEADLINE_EXCEEDED" Sample.env)
     (Sample.event "logs/task-ABC123-flight.bin")
     (Sample.world {[ "ABC123" := Sample.completed 5 ]})).1
  = Throw "DEADLINE_EXCEEDED"
  ∧ tasks (processLogFileUpload (Sample.with_add_error "DEADLINE_EXCEEDED" Sample.env)
             (Sample.event "logs/task-ABC123-flight.bin")
             (Sample.world {[ "ABC123" := Sample.completed 5 ]})).2
    = {[ "ABC123" := Sample.completed 5 ]}.
Proof.
  destruct (failure_before_record_persists_nothing
              (Sample.with_add_error "DEADLINE_EXCEEDED" Sample.env)
              (Sample.event "logs/task-ABC123-flight.bin")
              (Sample.world {[ "ABC123" := Sample.completed 5 ]})
              "DEADLINE_EXCEEDED")
    as (Hr & _ & _ & Ht & _); [reflexivity | | by split].
  right; right; right. repeat split; try reflexivity. by eexists.
Defined.

(** ** What the handler never does *)

Lemma handler_frame_refl name w : handler_frame name w w.
Proof.
  split; [done|]. split; [exists []; by rewrite app_nil_r|]. by split.
Qed.

Lemma handler_frame_trans name w1 w2 w3 :
  handler_frame name w1 w2 → handler_frame name w2 w3 → handler_frame name w1 w3.
Proof.
  intros (Hb1 & [l1 Hf1] & Hm1 & Hd1) (Hb2 & [l2 Hf2] & Hm2 & Hd2).
  split; [congruence|]. split; [|split; [|congruence]].
  - exists (l1 ++ l2). by rewrite Hf2, Hf1, app_assoc.
  - intros p Hp. by rewrite Hm2, Hm1.
Qed.

(** A computation that touches the local files only. *)
Lemma frame_local_only name {A} (m : M A) :
  (∀ w, bucket (m w).2 = bucket w ∧ file_hashes (m w).2 = file_hashes w
        ∧ object_metadata (m w).2 = object_metadata w ∧ tasks (m w).2 = tasks w) →
  respects (handler_frame name) m.
Proof.
  intros H w. destruct (H w) as (Hb & Hf & Hm & Ht).
  split; [done|]. split; [exists []; by rewrite app_nil_r|].
  split; [intros; by rewrite Hm | by rewrite Ht].
Qed.

Lemma frame_download name env path dest :
  respects (handler_frame name) (Storage.download env path dest).
Proof.
  apply frame_local_only. intros w. unfold Storage.download.
  destruct (download_error env); [by destruct (download_partial env)|].
  by destruct (bucket w !! path).
Qed.

Lemma frame_readFileSync name env path :
  respects (handler_frame name) (Fs.readFileSync env path).
Proof.
  apply frame_local_only. intros w. unfold Fs.readFileSync.
  destruct (read_error env); [done|]. by destruct (tmp_files w !! path).
Qed.

Lemma frame_unlinkSync name env path :
  respects (handler_frame name) (Fs.unlinkSync env path).
Proof.
  apply frame_local_only. intros w. unfold Fs.unlinkSync.
  destruct (unlink_error env); [done|]. by destruct (tmp_files w !! path).
Qed.

Lemma frame_add name env doc :
  respects (handler_frame name) (Firestore.add_file_hash env doc).
Proof.
  intros w. unfold Firestore.add_file_hash.
  destruct (add_error env); [apply handler_frame_refl|].
  split; [done|]. split; [by exists [doc]|]. by split.
Qed.

Lemma frame_setMetadata name env hash :
  respects (handler_frame name) (Storage.setMetadata env name hash).
Proof.
  intros w. unfold Storage.setMetadata.
  destruct (setMetadata_error env); [apply handler_frame_refl|].
  split; [done|]. split; [exists []; by rewrite app_nil_r|].
  split; [|done]. intros p Hp. cbn. by rewrite lookup_insert_ne.
Qed.

Lemma frame_send name env hash filePath md :
  respects (handler_frame name) (sendToExternalSystem env hash filePath md).
Proof.
  intros w.
  destruct (send_frame env hash filePath md w) as (o & w' & -> & (Hf & Hb & Hm & _) & Hd).
  cbn [snd]. split; [done|]. split; [exists []; by rewrite app_nil_r, Hf|].
  split; [intros; by rewrite Hm | done].
Qed.

(** X11. Whatever fails, an invocation for the object [name] never writes
    the bucket, never removes or rewrites a provenance record (records are
    only appended), changes the custom metadata of no object other than
    [name], and creates or deletes no task document. *)
Theorem upload_handler_frame (env : Env) (object : ObjectEvent) (w : World) :
  handler_frame (obj_name object) w (processLogFileUpload env object w).2.
Proof.
  set (name := obj_name object).
  assert (Hbind : ∀ A B (m : M A) (k : A → M B),
             respects (handler_frame name) m →
             (∀ a, respects (handler_frame name) (k a)) →
             respects (handler_frame name) (bind m k))
    by (intros; by apply (respects_bind _ (handler_frame_trans name))).
  assert (Hret : ∀ A (a : A), respects (handler_frame name) (ret a))
    by (intros; apply (respects_ret _ (handler_frame_refl name))).
  assert (Hthrow : ∀ A e, respects (handler_frame name) (@throw A e))
    by (intros; apply (respects_throw _ (handler_frame_refl name))).
  revert w. change (respects (handler_frame name) (processLogFileUpload env object)).
  unfold processLogFileUpload. fold name.
  destruct (negb _); [apply Hret|]. cbn zeta.
  apply (respects_try_catch _ (handler_frame_trans name)).
  - apply Hbind; [apply frame_download|intros _].
    apply Hbind; [apply frame_readFileSync|intros fileBuffer].
    apply Hbind; [apply frame_add|intros _].
    apply Hbind; [apply frame_setMetadata|intros _].
    apply Hbind; [apply frame_send|intros _].
    apply Hbind; [apply frame_unlinkSync|intros _]. apply Hret.
  - intros e. apply Hbind; [|intros _; apply Hthrow].
    apply (respects_try_catch _ (handler_frame_trans name)); [|intros _; apply Hret].
    apply Hbind; [by apply frame_local_only|intros [|]];
      [apply frame_unlinkSync | apply Hret].
Qed.

(** X12. The handler returns [null] exactly for objects outside [logs/],
    and for those it does nothing at all: no download, no record, no tag,
    no verification. For an object under [logs/] it either returns a
    digest or throws. *)
Theorem other_objects_are_skipped (env : Env) (object : ObjectEvent) (w : World) :
  ((processLogFileUpload env object w).1 = Ok None
   ↔ Js.startsWith "logs/" (obj_name object) = false)
  ∧ (Js.startsWith "logs/" (obj_name object) = false →
     (processLogFileUpload env object w).2 = w).
Proof.
  unfold processLogFileUpload.
  destruct (Js.startsWith "logs/" (obj_name object)) eqn:Hlogs; cbn [negb];
    [|by split].
  split; [|done]. split; [|done]. cbn zeta. unfold try_catch at 1.
  match goal with |- context [match ?body w with _ => _ end] =>
    destruct (body w) as [[r|e] w1] eqn:Hbody end.
  - apply bind_Ok_inv in Hbody as (? & ? & _ & Hbody).
    apply bind_Ok_inv in Hbody as (? & ? & _ & Hbody).
    apply bind_Ok_inv in Hbody as (? & ? & _ & Hbody).
    apply bind_Ok_inv in Hbody as (? & ? & _ & Hbody).
    apply bind_Ok_inv in Hbody as (? & ? & _ & Hbody).
    apply bind_Ok_inv in Hbody as (? & ? & _ & Hbody).
    injection Hbody as <- _. done.
  - unfold bind, throw. by destruct (try_catch _ _ w1) as [[u|e'] w2].
Qed.

Lemma other_objects_are_skipped_witness :
  processLogFileUpload Sample.env (Sample.event "uploads/task-ABC123-flight.bin")
    (Sample.world {[ "ABC123" := Sample.completed 5 ]})
  = (Ok None, Sample.world {[ "ABC123" := Sample.completed 5 ]}).
Proof.
  destruct (other_objects_are_skipped Sample.env
              (Sample.event "uploads/task-ABC123-flight.bin")
              (Sample.world {[ "ABC123" := Sample.completed 5 ]})) as [Hnull Hsame].
  apply injective_projections; [by apply Hnull | by apply Hsame].
Defined.

(** ** The scan of the path, the transaction id and the temporary path *)

(** X13. The scan [/task-([a-zA-Z0-9]+)/] of a path yields [cap] exactly
    when [cap] is the non-empty, maximal alphanumeric run that follows the
    leftmost [task-] directly followed by an alphanumeric character, and
    yields nothing exactly when the path has no such place. In particular a
    token is never empty and never contains a character such as [-], [_]
    or [.]. *)
Theorem task_re_characterisation (filePath : string) :
  (∀ cap, Js.task_re filePath = Some cap ↔ Spec.first_task_token filePath cap)
  ∧ (Js.task_re filePath = None ↔ Spec.no_task_token filePath).
Proof.
  split.
  - intros cap. split; [apply task_re_sound | apply task_re_first].
  - split; [apply task_re_None_inv | apply task_re_none].
Qed.

Lemma substring_length n : ∀ m s,
  String.length (String.substring n m s) = Nat.min m (String.length s - n).
Proof.
  induction n as [|n IH]; intros m s.
  - revert s. induction m as [|m IHm]; intros [|c s]; simpl; try done.
    by rewrite IHm, Nat.sub_0_r.
  - destruct s as [|c s]; simpl; [by destruct m; simpl; lia|]. apply IH.
Qed.

Lemma digit36_alnum d : d < 36 → Js.is_alnum (Js.digit36 d) = true.
Proof.
  intros Hd. by apply (digits_forallb (fun d => Js.is_alnum (Js.digit36 d))).
Qed.

Lemma toString36_aux_alnum fuel : ∀ n acc,
  Js.all_alnum acc = true → Js.all_alnum (Js.toString36_aux fuel n acc) = true.
Proof.
  induction fuel as [|fuel IH]; intros n acc Hacc; [done|].
  assert (Hmod : n mod 36 < 36) by (apply N.mod_lt; lia).
  assert (Hacc' : Js.all_alnum (String (Js.digit36 (n mod 36)) acc) = true).
  { cbn [Js.all_alnum]. by rewrite digit36_alnum, Hacc. }
  cbn [Js.toString36_aux]. destruct (n / 36 =? 0); [done|]. by apply IH.
Qed.

Lemma toString36_aux_length fuel : ∀ n acc,
  (String.length acc ≤ String.length (Js.toString36_aux fuel n acc))%nat.
Proof.
  induction fuel as [|fuel IH]; intros n acc; [done|].
  cbn [Js.toString36_aux]. destruct (n / 36 =? 0); [simpl; lia|].
  etransitivity; [|apply IH]. simpl. lia.
Qed.

Lemma digit36_base36 d : d < 36 → Js.is_base36 (Js.digit36 d) = true.
Proof.
  intros Hd. by apply (digits_forallb (fun d => Js.is_base36 (Js.digit36 d))).
Qed.

Lemma toString36_aux_base36 fuel : ∀ n acc,
  Js.all_base36 acc = true → Js.all_base36 (Js.toString36_aux fuel n acc) = true.
Proof.
  induction fuel as [|fuel IH]; intros n acc Hacc; [done|].
  assert (Hmod : n mod 36 < 36) by (apply N.mod_lt; lia).
  assert (Hacc' : Js.all_base36 (String (Js.digit36 (n mod 36)) acc) = true).
  { cbn [Js.all_base36]. by rewrite digit36_base36, Hacc. }
  cbn [Js.toString36_aux]. destruct (n / 36 =? 0); [done|]. by apply IH.
Qed.

(** The rendering of a positive number starts with a digit other than
    zero. *)
Lemma toString36_aux_head fuel : ∀ n acc,
  0 < n → n < 36 ^ N.of_nat fuel →
  ∃ d r, 0 < d ∧ d < 36 ∧ Js.toString36_aux fuel n acc = String (Js.digit36 d) r.
Proof.
  induction fuel as [|fuel IH]; intros n acc Hpos Hn.
  - simpl in Hn. lia.
  - pose proof (N.div_mod n 36 ltac:(lia)) as Hdm.
    assert (Hmod : n mod 36 < 36) by (apply N.mod_lt; lia).
    cbn [Js.toString36_aux]. destruct (N.eqb_spec (n / 36) 0) as [Hz|Hnz].
    + exists (n mod 36), acc. split; [lia|done].
    + apply IH; [lia|]. apply N.Div0.div_lt_upper_bound.
      rewrite Nat2N.inj_succ, N.pow_succ_r' in Hn. lia.
Qed.

Lemma toString36_leading n r :
  Js.toString36 n = String "0" r → r = "" ∧ n = 0.
Proof.
  destruct (N.eq_dec n 0) as [->|Hn]; [by intros [= <-]|].
  intros Heq. exfalso.
  destruct (toString36_aux_head (S (N.to_nat (N.log2 n))) n "" ltac:(lia)
              (enough_fuel n)) as (d & r' & Hd0 & Hd & Hs).
  unfold Js.toString36 in Heq. rewrite Hs in Heq. injection Heq as Hc _.
  pose proof (value36_digit36 d Hd) as Hv. rewrite Hc in Hv.
  change (Js.value36 "0") with 0 in Hv. lia.
Qed.

(** X14. A mock transaction id is [MOCK_TX_], the clock reading written in
    base 36, an underscore, and a suffix cut from the random draw. The
    clock part is the canonical numeral of [Date.now()]: it is not empty,
    it is made of the digits [0-9] and [a-z] only, it has no leading zero
    and it reads back as the clock value. The suffix is the characters at
    positions 2 to 6 of the rendering of the draw: five characters when
    the draw has at least five digits after [0.], fewer, down to none,
    when the rendering is shorter. *)
Theorem mockTxId_format (env : Env) :
  let clock := Js.toString36 (date_now env) in
  let suffix := Js.substring 2 7 (random36 env) in
  mockTxId env = "MOCK_TX_" +:+ clock +:+ "_" +:+ suffix
  ∧ Js.parse36 clock 0 = date_now env
  ∧ clock ≠ "" ∧ Js.all_base36 clock = true
  ∧ (∀ r, clock = String "0" r → r = "" ∧ date_now env = 0)
  ∧ String.length suffix = Nat.min 5 (String.length (random36 env) - 2)
  ∧ (∀ p, String.get p suffix
          = if (p <? 5)%nat then String.get (p + 2) (random36 env) else None).
Proof.
  cbv zeta. split; [done|]. split; [apply parse36_toString36|].
  split; [|split; [|split; [|split]]].
  - intros Hempty.
    pose proof (toString36_aux_length (N.to_nat (N.log2 (date_now env)))
                  (date_now env / 36)
                  (String (Js.digit36 (date_now env mod 36)) EmptyString)) as Hlen.
    unfold Js.toString36 in Hempty. cbn [Js.toString36_aux] in Hempty.
    destruct (date_now env / 36 =? 0); [discriminate Hempty|].
    rewrite Hempty in Hlen. simpl in Hlen. lia.
  - by apply toString36_aux_base36.
  - apply toString36_leading.
  - unfold Js.substring. cbn [Nat.ltb Nat.leb Nat.sub]. apply substring_length.
  - intros p.
    change (Js.substring 2 7 (random36 env))
      with (String.substring 2 5 (random36 env)).
    destruct (Nat.ltb_spec p 5) as [Hlt|Hge].
    + by apply String.substring_correct1.
    + by apply String.substring_correct2.
Qed.

Lemma mockTxId_format_witness :
  mockTxId (Sample.with_date_now 0 Sample.env) = "MOCK_TX_0_k2j5l"
  ∧ date_now (Sample.with_date_now 0 Sample.env) = 0.
Proof.
  destruct (mockTxId_format (Sample.with_date_now 0 Sample.env))
    as (Hid & _ & _ & _ & Hlead & _).
  split; [exact Hid|]. exact (proj2 (Hlead "" eq_refl)).
Defined.

Example mockTxId_short_draw :
  mockTxId (Sample.with_random "0" Sample.env) = "MOCK_TX_m2z2x87c_"
  ∧ mockTxId (Sample.with_random "0.5" Sample.env) = "MOCK_TX_m2z2x87c_5".
Proof. split; vm_compute; reflexivity. Qed.

Lemma append_nil_r (s : string) : s +:+ "" = s.
Proof. induction s as [|c s IH]; [done|]. by rewrite append_cons, IH. Qed.

Lemma append_assoc (a b c : string) : (a +:+ b) +:+ c = a +:+ (b +:+ c).
Proof. induction a as [|x a IH]; [done|]. by rewrite !append_cons, IH. Qed.

(** [basename] of what is left of a path once its last separator is
    behind: the component being read, extended by the rest. *)
Lemma basename_aux_plain name : ∀ cur last,
  Js.occurs "/" name = false →
  Js.basename_aux name cur last
  = match cur +:+ name with EmptyString => last | s => s end.
Proof.
  induction name as [|c name IH]; intros cur last Hno.
  - cbn [Js.basename_aux]. rewrite append_nil_r. by destruct cur.
  - cbn [Js.occurs] in Hno. apply orb_false_iff in Hno as [Hc Hno].
    cbn [Js.basename_aux]. rewrite Ascii.eqb_sym, Hc, IH by done.
    by rewrite append_assoc.
Qed.

Lemma basename_aux_dir dir name : ∀ cur last,
  Js.occurs "/" name = false → name ≠ "" →
  Js.basename_aux (dir +:+ "/" +:+ name) cur last = name.
Proof.
  induction dir as [|c dir IH]; intros cur last Hno Hne.
  - change ("" +:+ "/" +:+ name) with (String "/" name).
    cbn [Js.basename_aux]. rewrite Ascii.eqb_refl, basename_aux_plain by done.
    by destruct name.
  - rewrite append_cons. cbn [Js.basename_aux].
    destruct (Ascii.eqb c "/"); by apply IH.
Qed.

Lemma split_aux_plain name : ∀ cur,
  Js.occurs "/" name = false → Js.split_aux name cur = [cur +:+ name].
Proof.
  induction name as [|c name IH]; intros cur Hno.
  - cbn [Js.split_aux]. by rewrite append_nil_r.
  - cbn [Js.occurs] in Hno. apply orb_false_iff in Hno as [Hc Hno].
    cbn [Js.split_aux]. rewrite Ascii.eqb_sym, Hc, IH by done.
    by rewrite append_assoc.
Qed.

Lemma ends_with_slash_plain name :
  name ≠ "" → Js.occurs "/" name = false → Js.ends_with_slash name = false.
Proof.
  induction name as [|c name IH]; intros Hne Hno; [done|].
  cbn [Js.occurs] in Hno. apply orb_false_iff in Hno as [Hc Hno].
  cbn [Js.ends_with_slash]. destruct name as [|d name].
  - by rewrite Ascii.eqb_sym.
  - by apply IH.
Qed.

Lemma ends_with_slash_app pre name :
  name ≠ "" → Js.ends_with_slash (pre +:+ name) = Js.ends_with_slash name.
Proof.
  intros Hne. induction pre as [|c pre IH]; [done|].
  rewrite append_cons. cbn [Js.ends_with_slash].
  destruct (pre +:+ name) as [|d r] eqn:Hr; [|exact IH].
  destruct pre; [|discriminate Hr]. by destruct name.
Qed.

(** In the usual temporary directory a plain file name is appended as it
    is. *)
Lemma join_tmp_plain name :
  Js.occurs "/" name = false → name ≠ "" → name ≠ "." → name ≠ ".." →
  Js.join "/tmp" name = "/tmp/" +:+ name.
Proof.
  intros Hno Hne Hdot Hdots. unfold Js.join.
  destruct name as [|c name]; [done|].
  set (n := String c name) in *.
  change ("/tmp" +:+ "/" +:+ n)
    with (String "/" (String "t" (String "m" (String "p" (String "/" n))))).
  assert (Hends : Js.ends_with_slash
                    (String "/" (String "t" (String "m" (String "p" (String "/" n)))))
                  = false).
  { change (Js.ends_with_slash ("/tmp/" +:+ n) = false).
    by rewrite (ends_with_slash_app "/tmp/" n Hne), (ends_with_slash_plain n Hne Hno). }
  unfold Js.normalize. rewrite Hends. clear Hends.
  unfold Js.split. cbn [Js.split_aux Ascii.eqb Bool.eqb negb].
  rewrite (split_aux_plain n) by done.
  change ("" +:+ n) with n.
  change ((("" +:+ "t") +:+ "m") +:+ "p") with "tmp".
  apply String.eqb_neq in Hne, Hdot, Hdots.
  cbn [Js.normalize_segments]. rewrite Hne, Hdot, Hdots.
  change (("tmp" =? "")%string) with false.
  change (("tmp" =? ".")%string) with false.
  change (("tmp" =? "..")%string) with false.
  change (("" =? "")%string) with true.
  cbn [orb rev app Js.join_slash].
  change ("tmp" +:+ "/" +:+ n) with (String "t" ("mp/" +:+ n)). cbn iota.
  by rewrite append_nil_r.
Qed.

(** X15. The temporary path is the temporary directory joined with the
    last component of the object name only: two objects with the same file
    name in different folders are copied to the same local path. With the
    temporary directory [/tmp] and a file name other than [.] and [..],
    that path is [/tmp/] followed by the file name. *)
Theorem tempFilePath_by_file_name (env : Env) (object1 object2 : ObjectEvent)
    (dir1 dir2 name : string) :
  Js.occurs "/" name = false → name ≠ "" →
  obj_name object1 = dir1 +:+ "/" +:+ name →
  obj_name object2 = dir2 +:+ "/" +:+ name →
  tempFilePath env object1 = Js.join (os_tmpdir env) name
  ∧ tempFilePath env object2 = tempFilePath env object1
  ∧ (os_tmpdir env = "/tmp" → name ≠ "." → name ≠ ".." →
     tempFilePath env object1 = "/tmp/" +:+ name).
Proof.
  intros Hno Hne H1 H2. unfold tempFilePath, Js.basename.
  rewrite H1, H2, !basename_aux_dir by done. split; [done|]. split; [done|].
  intros -> Hdot Hdots. by apply join_tmp_plain.
Qed.

Lemma tempFilePath_by_file_name_witness :
  tempFilePath Sample.env (Sample.event "logs/drone-a/flight.bin") = "/tmp/flight.bin"
  ∧ tempFilePath Sample.env (Sample.event "logs/drone-b/flight.bin")
    = tempFilePath Sample.env (Sample.event "logs/drone-a/flight.bin").
Proof.
  destruct (tempFilePath_by_file_name Sample.env
              (Sample.event "logs/drone-a/flight.bin")
              (Sample.event "logs/drone-b/flight.bin")
              "logs/drone-a" "logs/drone-b" "flight.bin")
    as (_ & Hsame & Htmp);
    [reflexivity | discriminate | reflexivity | reflexivity |].
  split; [|exact Hsame].
  apply Htmp; [reflexivity | discriminate | discriminate].
Defined.

(** The join normalises: an object named [..] or [.] under [logs/] leads
    outside the file-name pattern, and a root temporary directory takes no
    second separator. *)
Example join_normalises :
  Js.join "/tmp" ".." = "/" ∧ Js.join "/tmp" "." = "/tmp"
  ∧ Js.join "/" "a.bin" = "/a.bin" ∧ Js.join "/var//tmp/" "a.bin" = "/var/tmp/a.bin"
  ∧ Js.join "tmp" "../.." = ".." ∧ Js.join "" "" = "."
  ∧ tempFilePath Sample.env (Sample.event "logs/..") = "/".
Proof. repeat split; vm_compute; reflexivity. Qed.

(** One step of a race, symbolically: the run whose turn it is reads,
    settles or updates. *)
Ltac race_turn Ht Hs Hv :=
  first
    [ rewrite step_Started by assumption
    | rewrite step_Fetched_eligible by assumption
    | erewrite step_Settled by
        first [ assumption | exact Ht | apply lookup_insert_eq ] ];
  cbn [runA runB world tasks set_settlements set_tasks];
  try rewrite Ht.

(** X17. When two runs of [verifyTask] for the same eligible task both
    read the task before either updates it, in whatever order their steps
    are otherwise taken, both make a settlement call and both report
    success, and the task ends up holding the verification fields of the
    run that updates last, written over those of the run that updates
    first. *)
Theorem race_both_read_first (envA envB : Env) (id : string)
    (resA resB : bool) (hashA hashB : string) (w : World) (t : Task)
    (schedule : list bool) :
  tasks w !! id = Some t →
  status t = "completed" → verificationResult t = None →
  get_error envA = None → update_error envA = None →
  get_error envB = None → update_error envB = None →
  both_read_before_either_updates schedule = true →
  let r := race blockchainService envA envB id resA resB hashA hashB schedule w in
  let fieldsA := verification_fields envA resA hashA (mockTxId envA) in
  let fieldsB := verification_fields envB resB hashB (mockTxId envB) in
  recorded (runA r) = true ∧ recorded (runB r) = true
  ∧ (∃ calls, settlements (world r) = settlements w ++ calls
              ∧ calls ≡ₚ [settlement_of envA id resA hashA;
                          settlement_of envB id resB hashB])
  ∧ tasks (world r) !! id
    = Some (match last schedule with
            | Some true => fieldsA (fieldsB t)
            | _ => fieldsB (fieldsA t)
            end).
Proof.
  intros Ht Hs Hv HgA HuA HgB HuB Hsched. cbv zeta.
  destruct schedule as [|s1 [|s2 [|s3 [|s4 [|s5 [|s6 [|s7 rest]]]]]]];
    try discriminate Hsched.
  destruct s1, s2, s3, s4, s5, s6; try discriminate Hsched; clear Hsched;
    unfold race; cbn [fold_left]; unfold race_step; cbn [runA runB world];
    do 6 race_turn Ht Hs Hv;
    cbn [recorded success last];
    (split; [reflexivity|]); (split; [reflexivity|]);
    (split;
     [ eexists; split; [symmetry; apply app_assoc|];
       first [ reflexivity | apply perm_swap ]
     | first [ apply lookup_insert_eq
             | rewrite insert_insert_eq; apply lookup_insert_eq ] ]).
Qed.

Example schedules_with_both_reads_first :
  both_read_before_either_updates [true; false; true; false; true; false] = true
  ∧ both_read_before_either_updates [true; false; true; false; false; true] = true
  ∧ both_read_before_either_updates [false; true; true; true; false; false] = true
  ∧ both_read_before_either_updates [true; true; true; false; false; false] = false
  ∧ both_read_before_either_updates [true; false; true; false; true] = false
  ∧ both_read_before_either_updates [true; true; true; true; false; false] = false.
Proof. repeat split; reflexivity. Qed.

Lemma race_both_read_first_witness :
  recorded (runA (race blockchainService Sample.env
                    (Sample.with_random "0.zzzzzzzz" Sample.env) "T1"
                    true true "aa" "bb"
                    [true; false; true; false; false; true]
                    (Sample.world {[ "T1" := Sample.completed 5 ]}))) = true
  ∧ recorded (runB (race blockchainService Sample.env
                      (Sample.with_random "0.zzzzzzzz" Sample.env) "T1"
                      true true "aa" "bb"
                      [true; false; true; false; false; true]
                      (Sample.world {[ "T1" := Sample.completed 5 ]}))) = true
  ∧ tasks (world (race blockchainService Sample.env
                    (Sample.with_random "0.zzzzzzzz" Sample.env) "T1"
                    true true "aa" "bb"
                    [true; false; true; false; false; true]
                    (Sample.world {[ "T1" := Sample.completed 5 ]}))) !! "T1"
    = Some (verification_fields Sample.env true "aa" (mockTxId Sample.env)
              (verification_fields (Sample.with_random "0.zzzzzzzz" Sample.env)
                 true "bb" (mockTxId (Sample.with_random "0.zzzzzzzz" Sample.env))
                 (Sample.completed 5))).
Proof.
  destruct (race_both_read_first Sample.env
              (Sample.with_random "0.zzzzzzzz" Sample.env)
              "T1" true true "aa" "bb"
              (Sample.world {[ "T1" := Sample.completed 5 ]}) (Sample.completed 5)
              [true; false; true; false; false; true])
    as (HA & HB & _ & Hfields); try reflexivity.
  split; [exact HA|]. split; [exact HB | exact Hfields].
Defined.

(** ** A refused deletion of the local copy *)

Lemma handler_unlink_refused env object w bytes e :
  storage_ok_but_unlink env object bytes w e →
  ∃ o w3,
    sendToExternalSystem env (sha256_hex env bytes) (obj_name object)
      (upload_metadata object) (after_storage env object bytes w) = (Ok o, w3)
    ∧ processLogFileUpload env object w = (Throw e, w3).
Proof.
  intros (Hlogs & Hd & Hb & Hr & Ha & Hs & Hu).
  destruct (send_frame env (sha256_hex env bytes) (obj_name object)
              (upload_metadata object) (after_storage env object bytes w))
    as (o & w3 & Hsend & Hf & Hdom).
  exists o, w3. split; [exact Hsend|].
  unfold processLogFileUpload. rewrite Hlogs. cbn [negb]. cbn zeta.
  change (Js.join (os_tmpdir env) (Js.basename (obj_name object)))
    with (tempFilePath env object).
  set (path := tempFilePath env object) in *.
  unfold try_catch, bind, Storage.download, Fs.readFileSync,
    Firestore.add_file_hash, Storage.setMetadata, Fs.existsSync, throw, ret.
  rewrite Hd, Hb, Hr, tmp_files_set_tmp_files, lookup_insert_eq, Ha, Hs.
  change (sendToExternalSystem env (sha256_hex env bytes) (obj_name object) _ _)
    with (sendToExternalSystem env (sha256_hex env bytes) (obj_name object)
            (upload_metadata object) (after_storage env object bytes w)).
  rewrite Hsend. unfold Fs.unlinkSync. rewrite Hu.
  by case_bool_decide.
Qed.

(** X16. When the deletion of the local copy is refused after everything
    else has worked, the invocation throws that error although the work is
    done: the provenance record is written, the task named in the path is
    verified and settled, and the local copy is still there. *)
Theorem unlink_refused_after_verification (env : Env) (object : ObjectEvent)
    (w : World) (bytes : list Byte.byte) (id : string) (t : Task) (e : string) :
  storage_ok_but_unlink env object bytes w e →
  get_error env = None → update_error env = None →
  Js.task_re (obj_name object) = Some id →
  tasks w !! id = Some t → eligible t →
  ∃ w', processLogFileUpload env object w = (Throw e, w')
        ∧ file_hashes w' = file_hashes w ++ [provenance_record env object bytes]
        ∧ tasks w'
          = <[id := verification_fields env true (sha256_hex env bytes)
                      (mockTxId env) t]> (tasks w)
        ∧ settlements w'
          = settlements w ++ [settlement_of env id true (sha256_hex env bytes)]
        ∧ tmp_files w' !! tempFilePath env object = Some bytes.
Proof.
  intros Hok Hg Hu Hre Ht [Hs Hv].
  destruct (handler_unlink_refused env object w bytes e Hok) as (o & w3 & Hsend & Hrun).
  rewrite (send_resolved _ _ _ _ _ id (extractTaskId_upload_path _ _ _ _ Hre)
             (task_re_nonempty _ _ Hre)) in Hsend.
  rewrite (verifyTask_eligible env id true (sha256_hex env bytes)
             (after_storage env object bytes w) t Ht Hs Hv Hg Hu) in Hsend.
  injection Hsend as _ <-. eexists. split; [exact Hrun|].
  repeat split. cbn. apply lookup_insert_eq.
Qed.

Lemma unlink_refused_after_verification_witness :
  ∃ w', processLogFileUpload (Sample.with_unlink_error "EPERM" Sample.env)
          (Sample.event "logs/task-ABC123-flight.bin")
          (Sample.world {[ "ABC123" := Sample.completed 5 ]})
        = (Throw "EPERM", w')
        ∧ (status <$> tasks w' !! "ABC123") = Some "verified"
        ∧ tmp_files w' !! "/tmp/task-ABC123-flight.bin" = Some [].
Proof.
  destruct (unlink_refused_after_verification
              (Sample.with_unlink_error "EPERM" Sample.env)
              (Sample.event "logs/task-ABC123-flight.bin")
              (Sample.world {[ "ABC123" := Sample.completed 5 ]})
              [] "ABC123" (Sample.completed 5) "EPERM")
    as (w' & Hrun & _ & Ht & _ & Htmp); try reflexivity.
  - repeat split; reflexivity.
  - by split.
  - exists w'. split; [exact Hrun|]. rewrite Ht. split; [reflexivity | exact Htmp].
Defined.
